(** * ScholarScout: the web client and the ranking contract it consumes

    The development embeds the TypeScript sources of the client
    ([FrontEnd/lib/api.ts], the search page of [FrontEnd/app/layout.tsx]
    and [FrontEnd/researcher(id)/page.tsx]) as Rocq functions and proves the
    properties of the specification about them.  The ranking engine behind
    the HTTP interface is part of the repository but not of the sources at
    hand; module [Engine] models it from the specification. *)

From Stdlib Require Import List Bool Arith NArith ZArith QArith Qminmax Qround Qabs Lia.
From Stdlib Require Import Ascii String DecimalString DecimalPos DecimalN.
From Stdlib Require Import Permutation Sorted Lqa.
Import ListNotations.

Set Implicit Arguments.

(** ** The fragment of the ECMAScript runtime the client relies on *)

Module JS.

(** A string is a sequence of UTF-16 code units. *)
Definition code_unit := N.
Definition jsstring := list code_unit.

(** Literals of the sources are written as Rocq strings. *)
Definition lit (s : string) : jsstring :=
  map N_of_ascii (list_ascii_of_string s).

Definition streq (a b : jsstring) : bool :=
  if list_eq_dec N.eq_dec a b then true else false.

(** [WhiteSpace] and [LineTerminator] of ECMA-262: what [trim] strips and
    what [Number] skips around a numeric literal. *)
Definition is_white_space (c : code_unit) : bool :=
  ((9 <=? c) && (c <=? 13)          (* TAB LF VT FF CR *)
   || (c =? 32)                     (* SP *)
   || (c =? 160)                    (* NBSP *)
   || (c =? 5760)                   (* U+1680 *)
   || ((8192 <=? c) && (c <=? 8202)) (* U+2000 .. U+200A *)
   || (c =? 8232) || (c =? 8233)    (* LS PS *)
   || (c =? 8239)                   (* U+202F *)
   || (c =? 8287)                   (* U+205F *)
   || (c =? 12288)                  (* U+3000 *)
   || (c =? 65279))%N.              (* U+FEFF *)

Fixpoint trim_start (s : jsstring) : jsstring :=
  match s with
  | c :: r => if is_white_space c then trim_start r else s
  | [] => []
  end.

Definition trim_end (s : jsstring) : jsstring := rev (trim_start (rev s)).

(** [String.prototype.trim] *)
Definition trim (s : jsstring) : jsstring := trim_end (trim_start s).

(** [String.prototype.split] with a one-code-unit separator: the pieces
    between the separators, empty pieces included; the empty string splits
    into one empty piece. *)
Fixpoint split (sep : code_unit) (s : jsstring) : list jsstring :=
  match s with
  | [] => [[]]
  | c :: r =>
      if (c =? sep)%N then [] :: split sep r
      else match split sep r with
           | piece :: pieces => (c :: piece) :: pieces
           | [] => [[c]]
           end
  end.

(** [Array.prototype.join] with a one-code-unit separator. *)
Fixpoint join (sep : code_unit) (pieces : list jsstring) : jsstring :=
  match pieces with
  | [] => []
  | [piece] => piece
  | piece :: rest => piece ++ sep :: join sep rest
  end.

Definition comma : code_unit := 44%N.

(** [ToBoolean] on a string: the empty string is the only falsy one. *)
Definition truthy (s : jsstring) : bool :=
  match s with [] => false | _ => true end.

(** *** Numbers

    A Number is NaN, an infinity or a finite value.  Finite values are
    modelled by rationals: every binary64 value is a rational, and
    comparison, [Math.max], [Math.min] and [toFixed] are exact on them.
    The rounding of a decimal literal or of a product to the nearest
    binary64 value is not modelled, nor is the sign of zero. *)
Inductive number :=
| NaN
| PosInfinity
| NegInfinity
| Fin (q : Q).

Definition is_nan (x : number) : bool :=
  match x with NaN => true | _ => false end.

(** [x < y] of the language: false as soon as one side is NaN. *)
Definition num_ltb (x y : number) : bool :=
  match x, y with
  | NaN, _ | _, NaN => false
  | _, NegInfinity => false
  | NegInfinity, _ => true
  | PosInfinity, _ => false
  | _, PosInfinity => true
  | Fin a, Fin b => match a ?= b with Lt => true | _ => false end
  end.

(** [Math.max(...args)]: NaN if an argument is NaN, otherwise the running
    highest value, starting from -Infinity. *)
Definition math_max (args : list number) : number :=
  if existsb is_nan args then NaN
  else fold_left (fun highest x => if num_ltb highest x then x else highest)
                 args NegInfinity.

(** [Math.min(...args)], dually, starting from +Infinity. *)
Definition math_min (args : list number) : number :=
  if existsb is_nan args then NaN
  else fold_left (fun lowest x => if num_ltb x lowest then x else lowest)
                 args PosInfinity.

(** Decimal digits of a natural number, as the engine prints an integer. *)
Definition decimal (n : N) : jsstring :=
  lit (NilZero.string_of_uint (N.to_uint n)).

Definition is_integer (q : Q) : bool := Qeq_bool (inject_Z (Qfloor q)) q.

Definition ten_pow_21 : Z := 10 ^ 21.

(** Up to 2^53 in magnitude every integer is a binary64 value: the engine
    reads and prints these without rounding, which is as far as the
    conversions below agree with it on integers. *)
Definition two_pow_53 : Z := 2 ^ 53.

Section NumberToString.

(** For a finite value that is not an integer below 10^21 in magnitude,
    [Number::toString] prints the shortest digit string that identifies
    the binary64 value; it is taken from the engine. *)
Variable shortest_digits : Q -> jsstring.

(** [Number::toString], radix 10: what a template literal prints.  An
    integer is printed with all its digits, as the engine does up to 2^53;
    above, the engine prints the shortest digits that identify the binary64
    value, followed by zeros. *)
Definition number_to_string (x : number) : jsstring :=
  match x with
  | NaN => lit "NaN"
  | PosInfinity => lit "Infinity"
  | NegInfinity => lit "-Infinity"
  | Fin q =>
      if is_integer q && (Z.abs (Qfloor q) <? ten_pow_21)%Z then
        let z := Qfloor q in
        (if (z <? 0)%Z then lit "-" else []) ++ decimal (Z.abs_N z)
      else shortest_digits q
  end.

(** [Number.prototype.toFixed(f)]: below 10^21 in magnitude, the integer
    [n] nearest to [|x| * 10^f] (the larger one on a tie), printed with
    [f] digits after the point and at least one before, after a minus
    sign when [x < 0]; otherwise as [Number::toString]. *)
Definition to_fixed (f : nat) (x : number) : jsstring :=
  match x with
  | Fin q =>
      if Qle_bool (inject_Z ten_pow_21) (Qabs q) then number_to_string x
      else
        let n := Z.to_N (Qfloor (Qabs q * inject_Z (10 ^ Z.of_nat f) + (1 # 2))) in
        let m := decimal n in
        let m := repeat 48%N (S f - List.length m) ++ m in
        let k := List.length m in
        (match q ?= 0 with Lt => lit "-" | _ => [] end)
          ++ firstn (k - f) m
          ++ match f with O => [] | _ => lit "." ++ skipn (k - f) m end
  | _ => number_to_string x
  end.

End NumberToString.

(** *** [Number(string)]: StringToNumber of ECMA-262 *)

Definition digit_value (base : N) (c : code_unit) : option N :=
  let v :=
    if ((48 <=? c) && (c <=? 57))%N then Some (c - 48)%N
    else if ((97 <=? c) && (c <=? 102))%N then Some (c - 87)%N
    else if ((65 <=? c) && (c <=? 70))%N then Some (c - 55)%N
    else None in
  match v with
  | Some d => if (d <? base)%N then Some d else None
  | None => None
  end.

(** A decimal digit. *)
Definition is_digit (c : code_unit) : Prop := (48 <= c <= 57)%N.

(** The longest prefix of digits of the base, as the value read so far and
    the number of digits read, and the rest. *)
Fixpoint read_digits (base : N) (s : jsstring) (acc : N) (count : nat)
  : N * nat * jsstring :=
  match s with
  | c :: r =>
      match digit_value base c with
      | Some d => read_digits base r (acc * base + d)%N (S count)
      | None => (acc, count, s)
      end
  | [] => (acc, count, [])
  end.

(** [ExponentPart_opt] followed by the end of the literal. *)
Definition read_exponent (s : jsstring) : option Z :=
  match s with
  | [] => Some 0%Z
  | c :: r =>
      if ((c =? 101) || (c =? 69))%N then   (* e E *)
        let '(negative, r) :=
          match r with
          | 43%N :: r' => (false, r')          (* + *)
          | 45%N :: r' => (true, r')           (* - *)
          | _ => (false, r)
          end in
        match read_digits 10 r 0 0 with
        | (_, O, _) => None
        | (e, _, []) => Some (if negative then (- Z.of_N e)%Z else Z.of_N e)
        | _ => None
        end
      else None
  end.

(** [StrUnsignedDecimalLiteral] other than [Infinity]: digits with an
    optional fraction and exponent, at least one digit around the point. *)
Definition read_unsigned_decimal (s : jsstring) : option Q :=
  let '(int_part, int_len, r) := read_digits 10 s 0 0 in
  let '(mantissa, frac_len, r) :=
    match r with
    | 46%N :: r' =>                              (* . *)
        let '(m, total, r'') := read_digits 10 r' int_part int_len in
        (m, (total - int_len)%nat, r'')
    | _ => (int_part, O, r)
    end in
  match (int_len + frac_len)%nat with
  | O => None
  | _ =>
      match read_exponent r with
      | Some e =>
          Some (inject_Z (Z.of_N mantissa)
                * Qpower (10 # 1) (e - Z.of_nat frac_len))
      | None => None
      end
  end.

Definition negate (x : number) : number :=
  match x with
  | NaN => NaN
  | PosInfinity => NegInfinity
  | NegInfinity => PosInfinity
  | Fin q => Fin (- q)
  end.

Definition read_unsigned (s : jsstring) : number :=
  if streq s (lit "Infinity") then PosInfinity
  else match read_unsigned_decimal s with
       | Some q => Fin q
       | None => NaN
       end.

(** [NonDecimalIntegerLiteral]: [0x], [0o], [0b] and at least one digit. *)
Definition read_non_decimal (s : jsstring) : option number :=
  match s with
  | 48%N :: p :: r =>
      let base :=
        if ((p =? 120) || (p =? 88))%N then Some 16%N        (* x X *)
        else if ((p =? 111) || (p =? 79))%N then Some 8%N    (* o O *)
        else if ((p =? 98) || (p =? 66))%N then Some 2%N     (* b B *)
        else None in
      match base with
      | Some b =>
          match read_digits b r 0 0 with
          | (_, O, _) => Some NaN
          | (v, _, []) => Some (Fin (inject_Z (Z.of_N v)))
          | _ => Some NaN
          end
      | None => None
      end
  | _ => None
  end.

(** [Number(s)] for a string [s].  The value of the literal is kept as it
    is written; the engine rounds it to the nearest binary64 value, which
    changes nothing for an integer up to 2^53 in magnitude, and gives an
    infinity from 2^1024 on. *)
Definition Number (s : jsstring) : number :=
  match trim s with
  | [] => Fin 0
  | 43%N :: r => read_unsigned r                 (* + *)
  | 45%N :: r => negate (read_unsigned r)        (* - *)
  | t => match read_non_decimal t with
         | Some x => x
         | None => read_unsigned t
         end
  end.

(** [x * y] of the language. *)
Definition num_mul (x y : number) : number :=
  let sign (s : comparison) (z : number) : number :=
    match s with Eq => NaN | Lt => negate z | Gt => z end in
  match x, y with
  | NaN, _ | _, NaN => NaN
  | Fin a, Fin b => Fin (a * b)
  | Fin a, z => sign (a ?= 0) z
  | z, Fin b => sign (b ?= 0) z
  | PosInfinity, z => z
  | NegInfinity, z => negate z
  end.

(** [x + y] of the language. *)
Definition num_add (x y : number) : number :=
  match x, y with
  | NaN, _ | _, NaN => NaN
  | PosInfinity, NegInfinity | NegInfinity, PosInfinity => NaN
  | PosInfinity, _ | _, PosInfinity => PosInfinity
  | NegInfinity, _ | _, NegInfinity => NegInfinity
  | Fin a, Fin b => Fin (a + b)
  end.

(** [s || default] on a string that may be [null] or [undefined]: both and
    the empty string give the default. *)
Definition or_else (s : option jsstring) (default : jsstring) : jsstring :=
  match s with
  | Some t => if truthy t then t else default
  | None => default
  end.

(** [l || []] on an array that may be [null] or [undefined]. *)
Definition or_empty (A : Type) (l : option (list A)) : list A :=
  match l with Some l => l | None => [] end.

(** [x === y] on Numbers, as a proposition: NaN equals nothing. *)
Definition num_eq (x y : number) : Prop :=
  match x, y with
  | Fin a, Fin b => a == b
  | PosInfinity, PosInfinity | NegInfinity, NegInfinity => True
  | _, _ => False
  end.

(** [s.includes(part)], as a proposition. *)
Definition includes (s part : jsstring) : Prop :=
  exists before after, s = before ++ part ++ after.

(** *** Exceptions and promises

    A thrown value is an [Error] instance, with its [name] and [message],
    or any other value, which the client only ever converts to a string. *)
Inductive thrown :=
| ErrorObject (name message : jsstring)
| OtherValue (as_string : jsstring).

(** [new Error(message)] *)
Definition new_Error (message : jsstring) : thrown :=
  ErrorObject (lit "Error") message.

(** [String(e)]: [Error.prototype.toString] on an [Error] instance. *)
Definition String_of (e : thrown) : jsstring :=
  match e with
  | ErrorObject name message =>
      match name, message with
      | [], _ => message
      | _, [] => name
      | _, _ => name ++ lit ": " ++ message
      end
  | OtherValue s => s
  end.

(** [e?.message]: the message of an [Error] instance, nothing otherwise. *)
Definition message_of (e : thrown) : option jsstring :=
  match e with
  | ErrorObject _ message => Some message
  | OtherValue _ => None
  end.

(** The outcome of an awaited promise. *)
Inductive settled (A : Type) :=
| Fulfilled (value : A)
| Rejected (reason : thrown).
Arguments Fulfilled {A} value.
Arguments Rejected {A} reason.

End JS.

(** ** [FrontEnd/lib/api.ts] *)

Module Api.
Import JS.

(** The types of the module.  A field whose name another record of the
    module already has carries a prefix: [pc_], [pub_], [detail_],
    [researcher_]. *)
Record RecommendationQuery := {
  conference_series : option jsstring;
  year : option number;
  topics : list jsstring;
  years_back : number;
}.

Record ScoreBreakdown := {
  topic_sim : number;
  semantic_score : number;
  pub_recency_score : number;
  pc_recency_score : number;
  impact_score : number;
  pagerank_score : number;
  experience_score : number;
  newcomer_score : number;
}.

(** [keyof ScoreBreakdown] *)
Inductive breakdown_key :=
| key_topic_sim
| key_semantic_score
| key_pub_recency_score
| key_pc_recency_score
| key_impact_score
| key_pagerank_score
| key_experience_score
| key_newcomer_score.

(** [b[k]] *)
Definition field (b : ScoreBreakdown) (k : breakdown_key) : number :=
  match k with
  | key_topic_sim => topic_sim b
  | key_semantic_score => semantic_score b
  | key_pub_recency_score => pub_recency_score b
  | key_pc_recency_score => pc_recency_score b
  | key_impact_score => impact_score b
  | key_pagerank_score => pagerank_score b
  | key_experience_score => experience_score b
  | key_newcomer_score => newcomer_score b
  end.

(** Array fields are declared non-null; the pages guard them with [|| []],
    so a missing value is part of the model. *)
Record ResearcherShort := {
  id : number;
  full_name : jsstring;
  affiliation : option jsstring;
  country : option jsstring;
  citation_count : option number;
  h_index : option number;
  researcher_topics : option (list jsstring);
}.

Record RecommendationItem := {
  researcher : ResearcherShort;
  score : number;
  score_breakdown : ScoreBreakdown;
}.

Record RecommendationResponse := {
  query : RecommendationQuery;
  results : option (list RecommendationItem);
}.

Record PCHistoryItem := {
  pc_conference_series : jsstring;
  pc_year : number;
  role : jsstring;
}.

Record PublicationItem := {
  title : jsstring;
  pub_year : option number;
  venue : option jsstring;
}.

Record ResearcherDetail := {
  detail_id : number;
  detail_full_name : jsstring;
  detail_affiliation : option jsstring;
  detail_country : option jsstring;
  detail_citation_count : option number;
  detail_h_index : option number;
  detail_topics : option (list jsstring);
  pc_history : option (list PCHistoryItem);
  recent_publications : option (list PublicationItem);
  person_profile_url : option jsstring;
}.

(** *** The [fetch] interface *)

(** The text [JSON.stringify] produces is kept symbolic. *)
Inductive body_init :=
| JSON_stringify (payload : RecommendationQuery).

Definition headers_init := list (jsstring * jsstring).

Record RequestInit := {
  init_method : option jsstring;
  init_body : option body_init;
  init_headers : option headers_init;
}.

Record Request := {
  url : jsstring;
  method : option jsstring;
  body : option body_init;
  headers : headers_init;
}.

(** A received response: [res.ok], [res.status], the text [res.text()]
    resolves to and the outcome of [res.json()]. *)
Record Response (T : Type) := {
  ok : bool;
  status : N;
  text : jsstring;
  json : settled T;
}.

(** Object spread [{ ...a, ...b }] on header objects: the keys of [a] keep
    their place, those of [b] override or follow. *)
Fixpoint set_header (h : headers_init) (k v : jsstring) : headers_init :=
  match h with
  | [] => [(k, v)]
  | (k', v') :: r => if streq k' k then (k, v) :: r else (k', v') :: set_header r k v
  end.

Definition spread (a b : headers_init) : headers_init :=
  fold_left (fun h kv => set_header h (fst kv) (snd kv)) b a.

Section Client.

(** [process.env.NEXT_PUBLIC_API_BASE_URL] *)
Variable NEXT_PUBLIC_API_BASE_URL : option jsstring.

(** The engine's digits for a Number that is not a small integer. *)
Variable shortest_digits : Q -> jsstring.

Definition API_BASE : jsstring :=
  or_else NEXT_PUBLIC_API_BASE_URL (lit "http://localhost:8000").

Definition request_of (path : jsstring) (init : RequestInit) : Request :=
  {| url := API_BASE ++ path;
     method := init_method init;
     body := init_body init;
     headers := spread [(lit "Content-Type", lit "application/json")]
                       (match init_headers init with Some h => h | None => [] end) |}.

(** What [request] does with the outcome of the awaited [fetch]. *)
Definition respond (T : Type) (fetched : settled (Response T)) : settled T :=
  match fetched with
  | Rejected e => Rejected e
  | Fulfilled res =>
      if negb (ok res) then
        Rejected (new_Error (lit "API " ++ decimal (status res)
                             ++ lit ": " ++ text res))
      else json res
  end.

Definition request (T : Type) (fetch : Request -> settled (Response T))
    (path : jsstring) (init : RequestInit) : settled T :=
  respond (fetch (request_of path init)).

Definition recommend_init (payload : RecommendationQuery) : RequestInit :=
  {| init_method := Some (lit "POST");
     init_body := Some (JSON_stringify payload);
     init_headers := None |}.

Definition recommend
    (fetch : Request -> settled (Response RecommendationResponse))
    (payload : RecommendationQuery) : settled RecommendationResponse :=
  request fetch (lit "/recommend") (recommend_init payload).

Definition getResearcher_path (id : number) : jsstring :=
  lit "/researcher/" ++ number_to_string shortest_digits id.

Definition getResearcher_init : RequestInit :=
  {| init_method := Some (lit "GET"); init_body := None; init_headers := None |}.

Definition getResearcher
    (fetch : Request -> settled (Response ResearcherDetail))
    (id : number) : settled ResearcherDetail :=
  request fetch (getResearcher_path id) getResearcher_init.

Definition apiDocsUrl : jsstring := API_BASE ++ lit "/docs".

End Client.

(** The route of the researcher profile in the README of the repository:
    [GET /researchers/{researcher_id}]. *)
Definition readme_researcher_route (researcher_id : jsstring) : jsstring :=
  lit "/researchers/" ++ researcher_id.

End Api.

(** ** The search page, [Home] of [FrontEnd/app] *)

Module Home.
Import JS.

Definition clamp01 (x : number) : number :=
  math_max [Fin 0; math_min [Fin 1; x]].

(** A CSS length in percent, the [width] of the filled part of a bar. *)
Inductive css_width :=
| Percent (n : number).

Record progress := { bar_width : css_width }.

(** The width is [v * 100] without the rounding of the product to binary64,
    which keeps the width within 0 and 100 and in the order of the values. *)
Definition Progress (value : number) : progress :=
  let v := clamp01 value in
  {| bar_width := Percent (num_mul v (Fin 100)) |}.

Record row := {
  k : Api.breakdown_key;
  label : jsstring;
  note : option jsstring;
}.

Definition rows : list row :=
  [ {| k := Api.key_topic_sim; label := lit "Topic match"; note := None |};
    {| k := Api.key_semantic_score; label := lit "Semantic (embeddings)";
       note := Some (lit "If cosine is used, negatives may appear as 0 in bars.") |};
    {| k := Api.key_pub_recency_score; label := lit "Publication recency"; note := None |};
    {| k := Api.key_pc_recency_score; label := lit "PC recency"; note := None |};
    {| k := Api.key_impact_score; label := lit "Impact"; note := None |};
    {| k := Api.key_pagerank_score; label := lit "PageRank"; note := None |};
    {| k := Api.key_experience_score; label := lit "Experience"; note := None |};
    {| k := Api.key_newcomer_score; label := lit "Newcomer"; note := None |} ].

(** One rendered row of the breakdown: the label and its note, the value as
    printed by [toFixed(3)] and the bar. *)
Record row_view := {
  shown_key : Api.breakdown_key;
  shown_label : jsstring;
  shown_note : option jsstring;
  shown_value : jsstring;
  shown_bar : progress;
}.

Section View.
Variable shortest_digits : Q -> jsstring.

(** [Number(b[r.k])] is [b[r.k]], the field being a Number. *)
Definition ScoreBreakdownView (b : Api.ScoreBreakdown) : list row_view :=
  map (fun r =>
         {| shown_key := k r;
            shown_label := label r;
            shown_note := note r;
            shown_value := to_fixed shortest_digits 3 (Api.field b (k r));
            shown_bar := Progress (Api.field b (k r)) |})
      rows.
End View.

(** The state of the page: the four inputs of the form and what the last
    search left. *)
Record state := {
  conference : jsstring;
  year : jsstring;
  yearsBack : jsstring;
  topics : jsstring;
  loading : bool;
  error : option jsstring;
  items : list Api.RecommendationItem;
  openModal : bool;
  selected : option Api.RecommendationItem;
}.

Definition initial : state :=
  {| conference := []; year := []; yearsBack := lit "3"; topics := [];
     loading := false; error := None; items := [];
     openModal := false; selected := None |}.

Definition setLoading (b : bool) (s : state) : state :=
  {| conference := conference s; year := year s; yearsBack := yearsBack s;
     topics := topics s; loading := b; error := error s; items := items s;
     openModal := openModal s; selected := selected s |}.

Definition setError (e : option jsstring) (s : state) : state :=
  {| conference := conference s; year := year s; yearsBack := yearsBack s;
     topics := topics s; loading := loading s; error := e; items := items s;
     openModal := openModal s; selected := selected s |}.

Definition setItems (l : list Api.RecommendationItem) (s : state) : state :=
  {| conference := conference s; year := year s; yearsBack := yearsBack s;
     topics := topics s; loading := loading s; error := error s; items := l;
     openModal := openModal s; selected := selected s |}.

(** The [onChange] handlers of the four inputs. *)
Definition setConference (v : jsstring) (s : state) : state :=
  {| conference := v; year := year s; yearsBack := yearsBack s;
     topics := topics s; loading := loading s; error := error s; items := items s;
     openModal := openModal s; selected := selected s |}.

Definition setYear (v : jsstring) (s : state) : state :=
  {| conference := conference s; year := v; yearsBack := yearsBack s;
     topics := topics s; loading := loading s; error := error s; items := items s;
     openModal := openModal s; selected := selected s |}.

Definition setYearsBack (v : jsstring) (s : state) : state :=
  {| conference := conference s; year := year s; yearsBack := v;
     topics := topics s; loading := loading s; error := error s; items := items s;
     openModal := openModal s; selected := selected s |}.

Definition setTopics (v : jsstring) (s : state) : state :=
  {| conference := conference s; year := year s; yearsBack := yearsBack s;
     topics := v; loading := loading s; error := error s; items := items s;
     openModal := openModal s; selected := selected s |}.

(** The [payload] of [run]. *)
Definition payload (s : state) : Api.RecommendationQuery :=
  {| Api.conference_series :=
       if truthy (trim (conference s)) then Some (trim (conference s)) else None;
     Api.year :=
       if truthy (trim (year s)) then Some (Number (trim (year s))) else None;
     Api.topics := filter truthy (map trim (split comma (topics s)));
     Api.years_back :=
       if truthy (trim (yearsBack s)) then Number (trim (yearsBack s)) else Fin 3 |}.

(** [e?.message ? String(e.message) : String(e)] *)
Definition catch_text (e : thrown) : jsstring :=
  match message_of e with
  | Some m => if truthy m then m else String_of e
  | None => String_of e
  end.

Section Run.
Variable NEXT_PUBLIC_API_BASE_URL : option jsstring.
Variable fetch : Api.Request -> settled (Api.Response Api.RecommendationResponse).

(** The state once [run] has completed, from the state it was called in. *)
Definition run (s : state) : state :=
  let s1 := setError None (setLoading true s) in
  let s2 :=
    match Api.recommend NEXT_PUBLIC_API_BASE_URL fetch (payload s) with
    | Fulfilled res => setItems (or_empty (Api.results res)) s1
    | Rejected e => setItems [] (setError (Some (catch_text e)) s1)
    end in
  setLoading false s2.
End Run.

End Home.

(** ** What the search page renders *)

Module HomeView.
Import JS.

(** [setSelected] and [setOpenModal], and the two handlers that use them:
    [onClick] of an Explain button and [onClose] of the modal. *)
Definition setSelected (it : option Api.RecommendationItem) (s : Home.state) : Home.state :=
  {| Home.conference := Home.conference s; Home.year := Home.year s;
     Home.yearsBack := Home.yearsBack s; Home.topics := Home.topics s;
     Home.loading := Home.loading s; Home.error := Home.error s;
     Home.items := Home.items s; Home.openModal := Home.openModal s;
     Home.selected := it |}.

Definition setOpenModal (b : bool) (s : Home.state) : Home.state :=
  {| Home.conference := Home.conference s; Home.year := Home.year s;
     Home.yearsBack := Home.yearsBack s; Home.topics := Home.topics s;
     Home.loading := Home.loading s; Home.error := Home.error s;
     Home.items := Home.items s; Home.openModal := b;
     Home.selected := Home.selected s |}.

Definition explain (it : Api.RecommendationItem) (s : Home.state) : Home.state :=
  setOpenModal true (setSelected (Some it) s).

Definition close (s : Home.state) : Home.state := setOpenModal false s.

(** The state while the call of [run] is awaited: after [setLoading(true)]
    and [setError(null)]. *)
Definition pending (s : Home.state) : Home.state :=
  Home.setError None (Home.setLoading true s).

(** [Modal]: nothing unless open, else the title and the children. *)
Record modal (A : Type) := {
  modal_title : jsstring;
  modal_children : A;
}.

Definition Modal (A : Type) (open : bool) (title : jsstring) (children : A)
  : option (modal A) :=
  if negb open then None
  else Some {| modal_title := title; modal_children := children |}.

(** One entry of the list of results. *)
Record result :=  {
  href : jsstring;
  name : jsstring;
  affiliation_pill : jsstring;
  country_pill : jsstring;
  topic_tags : list jsstring;
  total_score : jsstring;
  explains : Api.RecommendationItem;
}.

Inductive results_view :=
| NoResultsYet
| Results (entries : list result).

Record view := {
  docs_href : jsstring;
  conference_value : jsstring;
  year_value : jsstring;
  yearsBack_value : jsstring;
  topics_value : jsstring;
  button_disabled : bool;
  button_label : jsstring;
  error_box : option jsstring;
  count : jsstring;
  results : results_view;
  breakdown_modal : option (modal (option (list Home.row_view)));
}.

Section Render.
Variable NEXT_PUBLIC_API_BASE_URL : option jsstring.
Variable shortest_digits : Q -> jsstring.

Definition render_result (it : Api.RecommendationItem) : result :=
  {| href := lit "/researcher/"
             ++ number_to_string shortest_digits (Api.id (Api.researcher it));
     name := Api.full_name (Api.researcher it);
     affiliation_pill :=
       or_else (Api.affiliation (Api.researcher it)) (lit "Unknown affiliation");
     country_pill := or_else (Api.country (Api.researcher it)) (lit "Unknown country");
     topic_tags := firstn 8 (or_empty (Api.researcher_topics (Api.researcher it)));
     total_score := to_fixed shortest_digits 4 (Api.score it);
     explains := it |}.

(** What [Home] returns for a state. *)
Definition render (s : Home.state) : view :=
  {| docs_href := Api.apiDocsUrl NEXT_PUBLIC_API_BASE_URL;
     conference_value := Home.conference s;
     year_value := Home.year s;
     yearsBack_value := Home.yearsBack s;
     topics_value := Home.topics s;
     button_disabled := Home.loading s;
     button_label := if Home.loading s then lit "Searching..." else lit "Search";
     error_box :=
       match Home.error s with
       | Some (c :: e) => Some (c :: e)
       | _ => None
       end;
     count := decimal (N.of_nat (List.length (Home.items s))) ++ lit " candidates";
     results :=
       match Home.items s with
       | [] => NoResultsYet
       | items => Results (map render_result items)
       end;
     breakdown_modal :=
       Modal (Home.openModal s) (lit "Score breakdown")
             (match Home.selected s with
              | Some it =>
                  Some (Home.ScoreBreakdownView shortest_digits (Api.score_breakdown it))
              | None => None
              end) |}.

End Render.

End HomeView.

(** ** The researcher page, [ResearcherPage] of [FrontEnd/researcher(id)] *)

Module ResearcherPage.
Import JS.

Record state := {
  loading : bool;
  error : option jsstring;
  r : option Api.ResearcherDetail;
}.

Definition initial : state := {| loading := true; error := None; r := None |}.

Section Effect.
Variable NEXT_PUBLIC_API_BASE_URL : option jsstring.
Variable shortest_digits : Q -> jsstring.
Variable fetch : Api.Request -> settled (Api.Response Api.ResearcherDetail).

(** The effect run for [params.id]; [mounted] is the flag as the awaited
    call settles: false once the component is gone or the id has changed. *)
Definition effect (params_id : jsstring) (mounted : bool) (s : state) : state :=
  let id := Number params_id in
  let s1 := {| loading := true; error := None; r := r s |} in
  let s2 :=
    match Api.getResearcher NEXT_PUBLIC_API_BASE_URL shortest_digits fetch id with
    | Fulfilled data =>
        if mounted then {| loading := loading s1; error := error s1; r := Some data |}
        else s1
    | Rejected e =>
        if mounted
        then {| loading := loading s1; error := Some (Home.catch_text e); r := r s1 |}
        else s1
    end in
  if mounted then {| loading := false; error := error s2; r := r s2 |} else s2.
End Effect.

(** A React child that is a string or a Number. *)
Inductive child :=
| Text (s : jsstring)
| Num (n : number).

(** [n ?? s] *)
Definition num_or (n : option number) (s : jsstring) : child :=
  match n with Some n => Num n | None => Text s end.

Record pc_row := {
  pc_series : jsstring;
  pc_year : number;
  pc_role : jsstring;
}.

Record publication_row := {
  pub_title : jsstring;
  pub_venue : jsstring;
  pub_year : child;
}.

Record detail_view := {
  heading : jsstring;
  shown_affiliation : jsstring;
  shown_country : jsstring;
  topic_pills : list jsstring;
  citations : child;
  h_index : child;
  profile_href : option jsstring;
  pc_rows : list pc_row;
  no_pc_history : bool;
  publication_rows : list publication_row;
  no_publications : bool;
}.

Inductive view :=
| Loading
| ErrorBox (message : jsstring)
| NotFound
| Detail (d : detail_view).

Definition is_empty (A : Type) (l : list A) : bool :=
  match l with [] => true | _ => false end.

Definition render_detail (d : Api.ResearcherDetail) : detail_view :=
  {| heading := Api.detail_full_name d;
     shown_affiliation := or_else (Api.detail_affiliation d) (lit "Unknown affiliation");
     shown_country := or_else (Api.detail_country d) (lit "Unknown country");
     topic_pills := or_empty (Api.detail_topics d);
     citations := num_or (Api.detail_citation_count d) (lit "-");
     h_index := num_or (Api.detail_h_index d) (lit "-");
     profile_href :=
       match Api.person_profile_url d with
       | Some u => if truthy u then Some u else None
       | None => None
       end;
     pc_rows :=
       map (fun m => {| pc_series := Api.pc_conference_series m;
                        pc_year := Api.pc_year m;
                        pc_role := Api.role m |})
           (firstn 20 (or_empty (Api.pc_history d)));
     no_pc_history := is_empty (or_empty (Api.pc_history d));
     publication_rows :=
       map (fun p => {| pub_title := Api.title p;
                        pub_venue := or_else (Api.venue p) (lit "Unknown venue");
                        pub_year := num_or (Api.pub_year p) (lit "?") |})
           (or_empty (Api.recent_publications d));
     no_publications := is_empty (or_empty (Api.recent_publications d)) |}.

Definition render (s : state) : view :=
  if loading s then Loading
  else match error s with
       | Some (c :: e) => ErrorBox (c :: e)
       | _ => match r s with
              | None => NotFound
              | Some d => Detail (render_detail d)
              end
       end.

(** The three fields of an entry of the PC history, received and shown. *)
Definition pc_fields (m : Api.PCHistoryItem) : jsstring * number * jsstring :=
  (Api.pc_conference_series m, Api.pc_year m, Api.role m).

Definition pc_row_fields (row : pc_row) : jsstring * number * jsstring :=
  (pc_series row, pc_year row, pc_role row).

End ResearcherPage.

(** ** The ranking engine behind [POST /recommend]

    The engine is the part of the repository that computes the response the
    client receives.  Its sources are not among the files at hand; the
    definitions of this module follow the specification (sections 3, 4.5,
    4.6, 6 and 7). *)

Module Engine.
Import JS.

(** Modelled from the spec: the Researcher record of the data model (the
    engine's sources are missing); the core reads it and never changes it. *)
Record Researcher := {
  identity : Z;
  display_name : jsstring;
  affiliation : option jsstring;
  country : option jsstring;
  topic_labels : list jsstring;
  citation_count : option N;
  h_index : option N;
}.

(** Modelled from the spec: the versioned weight configuration of the Score
    Aggregator, one fixed weight per signal (the engine's sources are
    missing, and the specification publishes no values). *)
Record Weights := {
  version : N;
  weight : Api.breakdown_key -> Q;
}.

(** Modelled from the spec: the enumeration of the eight signals, in the
    order of the breakdown (the engine's sources are missing). *)
Definition signals : list Api.breakdown_key :=
  [ Api.key_topic_sim; Api.key_semantic_score; Api.key_pub_recency_score;
    Api.key_pc_recency_score; Api.key_impact_score; Api.key_pagerank_score;
    Api.key_experience_score; Api.key_newcomer_score ].

(** Modelled from the spec: [aggregate(breakdown) -> total] of the Score
    Aggregator (missing from the sources), the fixed-weight combination of
    the eight components. *)
Definition aggregate (w : Weights) (b : Api.ScoreBreakdown) : number :=
  fold_left (fun total k => num_add total (num_mul (Fin (weight w k)) (Api.field b k)))
            signals (Fin 0).

(** Modelled from the spec: the failure kinds of the error taxonomy (the
    engine's sources are missing).  Data gaps and centrality faults are not
    failures of a request. *)
Inductive failure :=
| InputError (description : jsstring)
| CollaboratorUnavailable.

(** Modelled from the spec: what resolving the candidate set through the
    Entity Store Adapter yields, the store being reachable or not (the
    adapter and the Candidate Selector are missing from the sources). *)
Inductive resolved :=
| Unreachable
| Candidates (set : list Researcher).

(** Modelled from the spec: the validity of a query (missing from the
    sources): [years_back] is a positive integer. *)
Definition well_formed (q : Api.RecommendationQuery) : bool :=
  match Api.years_back q with
  | Fin y => is_integer y && (0 <? Qfloor y)%Z
  | _ => false
  end.

(** Modelled from the spec: the description an input error about
    [years_back] carries (missing from the sources; the specification asks
    for a descriptive failure and fixes no wording). *)
Definition years_back_description : jsstring :=
  lit "years_back must be a positive integer".

(** Modelled from the spec: a candidate with the breakdown and the total
    made for it per request, before the response is built (missing from
    the sources). *)
Record scored := {
  who : Researcher;
  parts : Api.ScoreBreakdown;
  total : number;
}.

(** Modelled from the spec: the order of the ranking (missing from the
    sources): by total score descending, ties by identifier ascending. *)
Definition precedes (a b : scored) : bool :=
  if num_ltb (total b) (total a) then true
  else if num_ltb (total a) (total b) then false
  else (identity (who a) <=? identity (who b))%Z.

(** Modelled from the spec: sorting into the order of the ranking, by
    insertion (the sort of the engine is missing from the sources). *)
Fixpoint insert (x : scored) (l : list scored) : list scored :=
  match l with
  | [] => [x]
  | y :: t => if precedes x y then x :: l else y :: insert x t
  end.

Definition sort (l : list scored) : list scored := fold_right insert [] l.

(** Modelled from the spec: the ResearcherSummary and the result item of
    the response contract, built from a scored candidate (missing from the
    sources). *)
Definition summary (r : Researcher) : Api.ResearcherShort :=
  {| Api.id := Fin (inject_Z (identity r));
     Api.full_name := display_name r;
     Api.affiliation := affiliation r;
     Api.country := country r;
     Api.citation_count := option_map (fun n => Fin (inject_Z (Z.of_N n))) (citation_count r);
     Api.h_index := option_map (fun n => Fin (inject_Z (Z.of_N n))) (h_index r);
     Api.researcher_topics := Some (topic_labels r) |}.

Definition to_item (s : scored) : Api.RecommendationItem :=
  {| Api.researcher := summary (who s);
     Api.score := total s;
     Api.score_breakdown := parts s |}.

Section Service.

Variable w : Weights.

(** Modelled from the spec: the eight Signal Computers (missing from the
    sources; the specification fixes their names and that they are pure
    functions of the query, the researcher and a consistent snapshot, not
    their curves). *)
Variable signal : Api.breakdown_key -> Api.RecommendationQuery -> Researcher -> Q.

(** Modelled from the spec: the breakdown of a candidate, the eight raw
    values of the signal computers, and its total by the aggregator
    (missing from the sources). *)
Definition breakdown (q : Api.RecommendationQuery) (r : Researcher) : Api.ScoreBreakdown :=
  {| Api.topic_sim := Fin (signal Api.key_topic_sim q r);
     Api.semantic_score := Fin (signal Api.key_semantic_score q r);
     Api.pub_recency_score := Fin (signal Api.key_pub_recency_score q r);
     Api.pc_recency_score := Fin (signal Api.key_pc_recency_score q r);
     Api.impact_score := Fin (signal Api.key_impact_score q r);
     Api.pagerank_score := Fin (signal Api.key_pagerank_score q r);
     Api.experience_score := Fin (signal Api.key_experience_score q r);
     Api.newcomer_score := Fin (signal Api.key_newcomer_score q r) |}.

Definition score_candidate (q : Api.RecommendationQuery) (r : Researcher) : scored :=
  let b := breakdown q r in
  {| who := r; parts := b; total := aggregate w b |}.

(** Modelled from the spec: the Ranking Service (missing from the
    sources).  A malformed query is rejected first; then the candidate set
    is resolved, every candidate is scored and aggregated, and the whole
    list is returned in ranking order. *)
Definition recommend (q : Api.RecommendationQuery) (resolve : Api.RecommendationQuery -> resolved)
  : failure + Api.RecommendationResponse :=
  if negb (well_formed q) then inl (InputError years_back_description)
  else match resolve q with
       | Unreachable => inl CollaboratorUnavailable
       | Candidates set =>
           inr {| Api.query := q;
                  Api.results :=
                    Some (map to_item (sort (map (score_candidate q) set))) |}
       end.

End Service.

(** Modelled from the spec: a scored candidate whose total is a finite
    value, as the aggregator makes them (missing from the sources). *)
Definition rated (s : scored) : Prop := exists t, total s = Fin t.

(** Modelled from the spec: the order of the ranking, as a relation. *)
Definition ranked_before (a b : scored) : Prop := precedes a b = true.

End Engine.

(** ** Sample data *)

Module Sample.
Import JS.

(** A researcher who served on the committee of ICSE from 2001 to 2021. *)
Definition long_serving : Api.ResearcherDetail :=
  {| Api.detail_id := Fin 7;
     Api.detail_full_name := lit "A. Reviewer";
     Api.detail_affiliation := None;
     Api.detail_country := None;
     Api.detail_citation_count := None;
     Api.detail_h_index := None;
     Api.detail_topics := Some [lit "testing"];
     Api.pc_history :=
       Some (map (fun y => {| Api.pc_conference_series := lit "ICSE";
                              Api.pc_year := Fin (inject_Z (Z.of_nat y));
                              Api.role := lit "PC member" |})
                 (seq 2001 21));
     Api.recent_publications := Some [];
     Api.person_profile_url := Some (lit "https://example.org/reviewer") |}.

Definition serves (d : Api.ResearcherDetail)
  : Api.Request -> settled (Api.Response Api.ResearcherDetail) :=
  fun _ => Fulfilled {| Api.ok := true; Api.status := 200%N; Api.text := [];
                        Api.json := Fulfilled d |}.

(** The weights of a deployment. *)
Definition weights : Engine.Weights :=
  {| Engine.version := 1%N;
     Engine.weight := fun k =>
       match k with
       | Api.key_topic_sim => 3 # 10
       | Api.key_semantic_score => 2 # 10
       | Api.key_pub_recency_score => 1 # 10
       | Api.key_pc_recency_score => 1 # 10
       | Api.key_impact_score => 1 # 10
       | Api.key_pagerank_score => 1 # 10
       | Api.key_experience_score => 5 # 100
       | Api.key_newcomer_score => 5 # 100
       end |}.

(** Signal computers for the samples: the share of the query topics among
    the labels of the researcher, citations against a thousand, and nothing
    for the other signals. *)
Definition signal (k : Api.breakdown_key) (q : Api.RecommendationQuery)
    (r : Engine.Researcher) : Q :=
  match k with
  | Api.key_topic_sim =>
      let shared := filter (fun t => existsb (streq t) (Engine.topic_labels r))
                           (Api.topics q) in
      match Api.topics q with
      | [] => 0
      | _ => Z.of_nat (List.length shared) # Pos.of_nat (List.length (Api.topics q))
      end
  | Api.key_impact_score =>
      match Engine.citation_count r with
      | Some c => Z.of_N c # 1000
      | None => 0
      end
  | _ => 0
  end.

Definition researcher (identity : Z) (name : string) (labels : list string)
    (citations : N) : Engine.Researcher :=
  {| Engine.identity := identity;
     Engine.display_name := lit name;
     Engine.affiliation := None;
     Engine.country := None;
     Engine.topic_labels := map lit labels;
     Engine.citation_count := Some citations;
     Engine.h_index := None |}.

Definition A : Engine.Researcher := researcher 1 "A" ["testing"%string] 500.
Definition B : Engine.Researcher := researcher 2 "B" ["security"%string] 100.
Definition C : Engine.Researcher := researcher 3 "C" [] 100.

(** A result as the interface returns it, with nine topics. *)
Definition item : Api.RecommendationItem :=
  {| Api.researcher :=
       {| Api.id := Fin 41;
          Api.full_name := lit "A. Reviewer";
          Api.affiliation := Some [];
          Api.country := None;
          Api.citation_count := Some (Fin 500);
          Api.h_index := None;
          Api.researcher_topics :=
            Some (map lit ["a"; "b"; "c"; "d"; "e"; "f"; "g"; "h"; "i"]%string) |};
     Api.score := Fin (35 # 100);
     Api.score_breakdown :=
       {| Api.topic_sim := Fin 1; Api.semantic_score := Fin (-1 # 4);
          Api.pub_recency_score := Fin 0; Api.pc_recency_score := Fin 0;
          Api.impact_score := Fin (1 # 2); Api.pagerank_score := Fin 0;
          Api.experience_score := Fin 0; Api.newcomer_score := Fin 0 |} |}.

(** The form filled in for ICSE 2026, on testing, three years back. *)
Definition form : Home.state :=
  Home.setTopics (lit "testing")
    (Home.setYear (lit "2026")
       (Home.setConference (lit "ICSE") Home.initial)).

End Sample.

(** ** Notions of the specification *)

Module Explain.
Import JS.

(** The recombination a caller makes of a breakdown with the published
    weights: the sum, over the eight named fields, of weight times field. *)
Definition recombination (w : Engine.Weights) (b : Api.ScoreBreakdown) : number :=
  let term (k : Api.breakdown_key) (x : number) := num_mul (Fin (Engine.weight w k)) x in
  num_add (term Api.key_topic_sim (Api.topic_sim b))
    (num_add (term Api.key_semantic_score (Api.semantic_score b))
       (num_add (term Api.key_pub_recency_score (Api.pub_recency_score b))
          (num_add (term Api.key_pc_recency_score (Api.pc_recency_score b))
             (num_add (term Api.key_impact_score (Api.impact_score b))
                (num_add (term Api.key_pagerank_score (Api.pagerank_score b))
                   (num_add (term Api.key_experience_score (Api.experience_score b))
                      (term Api.key_newcomer_score (Api.newcomer_score b)))))))).

End Explain.


Module TopicList.
Import JS.

(** Lower case, on the letters of ASCII: the least that equality up to case
    identifies. *)
Definition lower (c : code_unit) : code_unit :=
  if ((65 <=? c) && (c <=? 90))%N then (c + 32)%N else c.

Definition to_lower (t : jsstring) : jsstring := map lower t.

(** Every entry is in lower case. *)
Definition case_normalized (l : list jsstring) : Prop :=
  Forall (fun t => to_lower t = t) l.

(** No two entries are equal up to case. *)
Definition deduplicated (l : list jsstring) : Prop :=
  NoDup (map to_lower l).

End TopicList.

(** * Properties *)

Import JS.

(** ** The runtime on concrete values *)

Example Number_of_literals :
  map (fun s => Number (lit s))
      [" 42 "; "-5"; "1.5e1"; ".5"; "5."; "0x1F"; ""; "  "; "-Infinity";
       "."; "abc"; "1e"; "0x"; "+-1"; "1 2"; "-0x1F"]%string
  = [Fin 42; Fin (-5); Fin 15; Fin (5 # 10); Fin 5; Fin 31; Fin 0; Fin 0; NegInfinity;
     NaN; NaN; NaN; NaN; NaN; NaN; NaN].
Proof. reflexivity. Qed.

Example to_fixed_of_values (sd : Q -> jsstring) :
  map (to_fixed sd 3) [Fin (-1 # 2); Fin (1 # 3); Fin 0; Fin (-1 # 10000); Fin (5 # 10000); Fin 1; NaN]
  = map lit ["-0.500"; "0.333"; "0.000"; "-0.000"; "0.001"; "1.000"; "NaN"]%string.
Proof. reflexivity. Qed.

Example split_of_strings :
  map (fun s => split comma (lit s)) ["a,b"; ""; "a,"; ",a,,b"]%string
  = [ [lit "a"; lit "b"]; [[]]; [lit "a"; []]; [[]; lit "a"; []; lit "b"] ].
Proof. reflexivity. Qed.

Example trim_of_strings :
  map (fun s => trim (lit s)) ["  a b  "; "   "; "x"]%string = [lit "a b"; []; lit "x"].
Proof. reflexivity. Qed.

Example clamp01_of_values :
  map Home.clamp01 [Fin (-1 # 2); Fin (3 # 4); Fin 2; PosInfinity; NegInfinity; NaN]
  = [Fin 0; Fin (3 # 4); Fin 1; Fin 1; Fin 0; NaN].
Proof. reflexivity. Qed.

Example payload_of_form :
  Home.payload Sample.form
  = {| Api.conference_series := Some (lit "ICSE");
       Api.year := Some (Fin 2026);
       Api.topics := [lit "testing"];
       Api.years_back := Fin 3 |}.
Proof. reflexivity. Qed.

(** ** Numbers and the breakdown bars *)

Lemma ltb_fin (a b : Q) :
  num_ltb (Fin a) (Fin b) = true <-> (a < b)%Q.
Proof.
  simpl. rewrite Qlt_alt. destruct (a ?= b); split; congruence.
Qed.

Lemma ltb_fin_false (a b : Q) :
  num_ltb (Fin a) (Fin b) = false <-> (b <= a)%Q.
Proof.
  rewrite Qle_alt, <- Qcompare_antisym. simpl.
  destruct (a ?= b); simpl; split; congruence.
Qed.

Lemma clamp01_min_max (x : Q) :
  Home.clamp01 (Fin x) = Fin (Qmax 0 (Qmin 1 x)).
Proof.
  unfold Home.clamp01, math_max, math_min, Qmax, Qmin,
    GenericMinMax.gmax, GenericMinMax.gmin.
  rewrite <- (Qcompare_antisym x 1).
  cbn -[Qcompare].
  destruct (x ?= 1); cbn -[Qcompare];
    try reflexivity; destruct (0 ?= x); reflexivity.
Qed.

Lemma clamp01_range (x : Q) : (0 <= Qmax 0 (Qmin 1 x) <= 1)%Q.
Proof.
  split.
  - apply Q.le_max_l.
  - apply Q.max_lub; [ lra | apply Q.le_min_l ].
Qed.

Lemma clamp01_nonpositive (x : Q) : (x <= 0)%Q -> Home.clamp01 (Fin x) = Fin 0.
Proof.
  intros Hx. unfold Home.clamp01, math_max, math_min.
  cbn [existsb is_nan orb fold_left].
  change (num_ltb (Fin 1) PosInfinity) with true. cbv iota.
  assert (H1 : num_ltb (Fin x) (Fin 1) = true) by (apply ltb_fin; lra).
  rewrite H1. cbn [existsb is_nan orb fold_left].
  change (num_ltb NegInfinity (Fin 0)) with true. cbv iota.
  assert (H0 : num_ltb (Fin 0) (Fin x) = false) by (apply ltb_fin_false; exact Hx).
  rewrite H0. reflexivity.
Qed.





(** ** Strings: [trim] and [split] *)

Lemma trim_start_idempotent (s : jsstring) :
  trim_start (trim_start s) = trim_start s.
Proof.
  induction s as [ | c r IH ]; simpl; [ reflexivity | ].
  destruct (is_white_space c) eqn:E; [ exact IH | ].
  simpl. rewrite E. reflexivity.
Qed.

Lemma trim_start_head (s : jsstring) (c : code_unit) (r : jsstring) :
  trim_start s = c :: r -> is_white_space c = false.
Proof.
  induction s as [ | d t IH ]; simpl; [ discriminate | ].
  destruct (is_white_space d) eqn:E; [ exact IH | ].
  intros H. injection H as -> _. exact E.
Qed.

Lemma trim_start_fixed (s : jsstring) :
  (forall c r, s = c :: r -> is_white_space c = false) -> trim_start s = s.
Proof.
  destruct s as [ | c r ]; simpl; [ reflexivity | ].
  intros H. rewrite (H c r eq_refl). reflexivity.
Qed.

Lemma trim_start_suffix (s : jsstring) :
  exists p, s = p ++ trim_start s.
Proof.
  induction s as [ | c r [p IH] ]; simpl.
  - exists []. reflexivity.
  - destruct (is_white_space c).
    + exists (c :: p). simpl. rewrite <- IH. reflexivity.
    + exists []. reflexivity.
Qed.

Lemma trim_end_prefix (s : jsstring) :
  exists p, s = trim_end s ++ p.
Proof.
  unfold trim_end. destruct (trim_start_suffix (rev s)) as [p Hp].
  exists (rev p). rewrite <- rev_app_distr, <- Hp, rev_involutive. reflexivity.
Qed.

Lemma trim_end_idempotent (s : jsstring) :
  trim_end (trim_end s) = trim_end s.
Proof.
  unfold trim_end. rewrite rev_involutive, trim_start_idempotent. reflexivity.
Qed.

Lemma trim_idempotent (s : jsstring) : trim (trim s) = trim s.
Proof.
  unfold trim.
  assert (Hhead : trim_start (trim_end (trim_start s)) = trim_end (trim_start s)).
  { apply trim_start_fixed. intros c r Hc.
    destruct (trim_end_prefix (trim_start s)) as [p Hp].
    rewrite Hc in Hp. simpl in Hp.
    apply (trim_start_head s Hp). }
  rewrite Hhead. apply trim_end_idempotent.
Qed.

Lemma trim_sublist (s : jsstring) (c : code_unit) : In c (trim s) -> In c s.
Proof.
  unfold trim. intros H.
  destruct (trim_start_suffix s) as [p Hp].
  destruct (trim_end_prefix (trim_start s)) as [p' Hp'].
  rewrite Hp, Hp'. apply in_or_app. right. apply in_or_app. left. exact H.
Qed.

Lemma split_nonempty (sep : code_unit) (s : jsstring) : split sep s <> [].
Proof.
  destruct s as [ | c r ]; simpl; [ discriminate | ].
  destruct (c =? sep)%N; [ discriminate | ].
  destruct (split sep r); discriminate.
Qed.

Lemma split_pieces (sep : code_unit) (s piece : jsstring) :
  In piece (split sep s) -> ~ In sep piece.
Proof.
  revert piece. induction s as [ | c r IH ]; simpl; intros piece H.
  - destruct H as [ <- | [] ]. intros [].
  - destruct (c =? sep)%N eqn:E.
    + destruct H as [ <- | H ]; [ intros [] | apply IH; exact H ].
    + destruct (split sep r) as [ | p ps ] eqn:Es.
      * destruct (split_nonempty sep r Es).
      * destruct H as [ <- | H ].
        -- intros [ Hc | Hin ].
           ++ apply N.eqb_neq in E. congruence.
           ++ apply (IH p); [ left; reflexivity | exact Hin ].
        -- apply IH. right. exact H.
Qed.

Lemma split_no_separator (sep : code_unit) (s : jsstring) :
  ~ In sep s -> split sep s = [s].
Proof.
  induction s as [ | c r IH ]; simpl; intros H; [ reflexivity | ].
  destruct (c =? sep)%N eqn:E.
  - apply N.eqb_eq in E. destruct H. left. exact E.
  - rewrite IH; [ reflexivity | ]. intros Hin. apply H. right. exact Hin.
Qed.

Lemma split_app (sep : code_unit) (a b : jsstring) :
  ~ In sep a -> split sep (a ++ sep :: b) = a :: split sep b.
Proof.
  induction a as [ | c r IH ]; simpl; intros H.
  - rewrite N.eqb_refl. reflexivity.
  - destruct (c =? sep)%N eqn:E.
    + apply N.eqb_eq in E. destruct H. left. exact E.
    + rewrite IH; [ reflexivity | ]. intros Hin. apply H. right. exact Hin.
Qed.

Lemma split_join (sep : code_unit) (pieces : list jsstring) :
  pieces <> [] -> Forall (fun piece => ~ In sep piece) pieces ->
  split sep (join sep pieces) = pieces.
Proof.
  induction pieces as [ | a rest IH ]; intros Hne Hall; [ congruence | ].
  inversion Hall as [ | ? ? Ha Hrest ]; subst.
  destruct rest as [ | b rest ].
  - simpl. apply split_no_separator. exact Ha.
  - change (join sep (a :: b :: rest)) with (a ++ sep :: join sep (b :: rest)).
    rewrite (@split_app sep a (join sep (b :: rest)) Ha).
    rewrite IH; [ reflexivity | discriminate | exact Hrest ].
Qed.

(** ** The payload of a search *)

(** What a search posts: [run] hands [fetch] one request, the POST of the
    payload to [/recommend], and ends from the outcome of that call. *)
Lemma run_posts (env : option jsstring)
    (fetch : Api.Request -> settled (Api.Response Api.RecommendationResponse))
    (s : Home.state) :
  let sent :=
    {| Api.url := Api.API_BASE env ++ lit "/recommend";
       Api.method := Some (lit "POST");
       Api.body := Some (Api.JSON_stringify (Home.payload s));
       Api.headers := [(lit "Content-Type", lit "application/json")] |} in
  Api.recommend env fetch (Home.payload s) = Api.respond (fetch sent)
  /\ Home.run env fetch s
     = Home.setLoading false
         match Api.respond (fetch sent) with
         | Fulfilled res =>
             Home.setItems (or_empty (Api.results res))
               (Home.setError None (Home.setLoading true s))
         | Rejected e =>
             Home.setItems []
               (Home.setError (Some (Home.catch_text e))
                  (Home.setError None (Home.setLoading true s)))
         end.
Proof. split; reflexivity. Qed.

Lemma payload_topics_entries (s : Home.state) (t : jsstring) :
  In t (Api.topics (Home.payload s)) ->
  t <> [] /\ ~ In comma t /\ trim t = t.
Proof.
  unfold Home.payload. cbn [Api.topics]. intros H.
  apply filter_In in H. destruct H as [Hin Htruthy].
  apply in_map_iff in Hin. destruct Hin as (piece & <- & Hpiece).
  split; [ | split ].
  - intros E. rewrite E in Htruthy. discriminate.
  - intros Hc. apply (@split_pieces comma _ piece Hpiece). apply trim_sublist. exact Hc.
  - apply trim_idempotent.
Qed.

(** C3, as the page does it: the topics of the payload are the entries typed
    between the commas, in the order typed, each without its surrounding
    white space and none empty; nothing else is done to them, so entries
    that differ in case only, or not at all, are all sent, as typed.  That
    payload is what a search posts. *)
Theorem payload_topics (s : Home.state) :
  Forall (fun t => t <> [] /\ ~ In comma t /\ trim t = t)
         (Api.topics (Home.payload s))
  /\ (forall entries : list jsstring,
        entries <> [] ->
        Forall (fun entry => ~ In comma entry) entries ->
        Home.topics s = join comma entries ->
        Api.topics (Home.payload s) = filter truthy (map trim entries))
  /\ (forall (env : option jsstring)
             (fetch : Api.Request -> settled (Api.Response Api.RecommendationResponse)),
        let sent :=
          {| Api.url := Api.API_BASE env ++ lit "/recommend";
             Api.method := Some (lit "POST");
             Api.body := Some (Api.JSON_stringify (Home.payload s));
             Api.headers := [(lit "Content-Type", lit "application/json")] |} in
        Home.run env fetch s
        = Home.setLoading false
            match Api.respond (fetch sent) with
            | Fulfilled res =>
                Home.setItems (or_empty (Api.results res))
                  (Home.setError None (Home.setLoading true s))
            | Rejected e =>
                Home.setItems []
                  (Home.setError (Some (Home.catch_text e))
                     (Home.setError None (Home.setLoading true s)))
            end).
Proof.
  split; [ | split ].
  - apply Forall_forall. intros t. apply payload_topics_entries.
  - intros entries Hne Hall Hs.
    unfold Home.payload. cbn [Api.topics]. rewrite Hs.
    rewrite (@split_join comma entries Hne Hall). reflexivity.
  - intros env fetch. apply run_posts.
Qed.

Lemma payload_topics_witness :
  let s := Home.setTopics (lit "Testing , testing,,TESTING") Home.initial in
  Api.topics (Home.payload s) = [lit "Testing"; lit "testing"; lit "TESTING"].
Proof.
  intros s.
  apply (proj1 (proj2 (payload_topics s))
           [lit "Testing "; lit " testing"; []; lit "TESTING"]).
  - discriminate.
  - repeat constructor; vm_compute; intuition discriminate.
  - reflexivity.
Defined.

(** C3, as stated, fails: two topics that differ in case only are both
    sent, neither in lower case nor merged. *)
Lemma payload_topics_not_normalized :
  let s := Home.setTopics (lit "AI, ai") Home.initial in
  Api.topics (Home.payload s) = [lit "AI"; lit "ai"]
  /\ ~ TopicList.case_normalized (Api.topics (Home.payload s))
  /\ ~ TopicList.deduplicated (Api.topics (Home.payload s)).
Proof.
  intros s.
  assert (E : Api.topics (Home.payload s) = [lit "AI"; lit "ai"]) by reflexivity.
  rewrite E. split; [ reflexivity | split ].
  - intros H. inversion H as [ | t l Ht _ ]. discriminate Ht.
  - intros H. inversion H as [ | t l Hnotin _ ]. apply Hnotin. left. reflexivity.
Qed.

(** C5: when the years-back field holds nothing but white space, a search
    posts to [/recommend] a body made from a payload whose [years_back] is
    3: [run] hands [fetch] that one request, as [recommend] does, and ends
    from the outcome of the call. *)
Theorem years_back_default (env : option jsstring) (s : Home.state) :
  trim (Home.yearsBack s) = [] ->
  let sent :=
    {| Api.url := Api.API_BASE env ++ lit "/recommend";
       Api.method := Some (lit "POST");
       Api.body := Some (Api.JSON_stringify (Home.payload s));
       Api.headers := [(lit "Content-Type", lit "application/json")] |} in
  Api.years_back (Home.payload s) = Fin 3
  /\ Api.body (Api.request_of env (lit "/recommend")
                 (Api.recommend_init (Home.payload s)))
     = Some (Api.JSON_stringify (Home.payload s))
  /\ (exists p, Api.body sent = Some (Api.JSON_stringify p) /\ Api.years_back p = Fin 3)
  /\ (forall fetch, Api.recommend env fetch (Home.payload s) = Api.respond (fetch sent))
  /\ (forall fetch,
        Home.run env fetch s
        = Home.setLoading false
            match Api.respond (fetch sent) with
            | Fulfilled res =>
                Home.setItems (or_empty (Api.results res))
                  (Home.setError None (Home.setLoading true s))
            | Rejected e =>
                Home.setItems []
                  (Home.setError (Some (Home.catch_text e))
                     (Home.setError None (Home.setLoading true s)))
            end).
Proof.
  intros H sent.
  assert (Hdefault : Api.years_back (Home.payload s) = Fin 3).
  { unfold Home.payload. cbn [Api.years_back]. rewrite H. reflexivity. }
  split; [ exact Hdefault | ].
  split; [ reflexivity | ].
  split; [ exists (Home.payload s); split; [ reflexivity | exact Hdefault ] | ].
  split; intros fetch; apply run_posts.
Qed.

Lemma years_back_default_witness :
  let s := Home.setYearsBack (lit "   ") Home.initial in
  let echo : Api.Request -> settled (Api.Response Api.RecommendationResponse) :=
    fun sent =>
      match Api.body sent with
      | Some (Api.JSON_stringify p) =>
          match Api.years_back p with
          | Fin y => Rejected (OtherValue (lit "years_back " ++ decimal (Z.to_N (Qfloor y))))
          | _ => Rejected (OtherValue (lit "years_back null"))
          end
      | None => Rejected (OtherValue (lit "no body"))
      end in
  trim (Home.yearsBack s) = []
  /\ Api.years_back (Home.payload s) = Fin 3
  /\ Home.error (Home.run None echo s) = Some (lit "years_back 3").
Proof.
  intros s echo.
  assert (H : trim (Home.yearsBack s) = []) by reflexivity.
  destruct (years_back_default None s H) as (Hdefault & _ & _ & _ & Hrun).
  split; [ exact H | split; [ exact Hdefault | ] ].
  rewrite (Hrun echo). reflexivity.
Defined.

(** ** The request helper *)

Lemma includes_middle (a part b : jsstring) : includes (a ++ part ++ b) part.
Proof. exists a, b. reflexivity. Qed.

Lemma respond_not_ok (T : Type) (res : Api.Response T) :
  Api.ok res = false ->
  Api.respond (Fulfilled res)
  = Rejected (new_Error (lit "API " ++ decimal (Api.status res)
                         ++ lit ": " ++ Api.text res)).
Proof. intros H. unfold Api.respond. rewrite H. reflexivity. Qed.

Lemma respond_ok (T : Type) (res : Api.Response T) :
  Api.ok res = true -> Api.respond (Fulfilled res) = Api.json res.
Proof. intros H. unfold Api.respond. rewrite H. reflexivity. Qed.

(** C6: for a response the helper has received, a status that is not ok
    makes the call reject with [Error("API <status>: <body text>")], which
    is no result at all, empty or not; an ok status makes the call settle
    as [res.json()] does, with the parsed body.  [recommend] and
    [getResearcher] are the helper at their path and method. *)
Theorem request_outcome (env : option jsstring) :
  let contract (T : Type) (res : Api.Response T) (outcome : settled T) : Prop :=
    (Api.ok res = false ->
       exists message,
         outcome = Rejected (ErrorObject (lit "Error") message)
         /\ message = lit "API " ++ decimal (Api.status res) ++ lit ": " ++ Api.text res
         /\ includes message (decimal (Api.status res))
         /\ includes message (Api.text res)
         /\ forall v, outcome <> Fulfilled v)
    /\ (Api.ok res = true ->
          outcome = Api.json res
          /\ forall v, Api.json res = Fulfilled v -> outcome = Fulfilled v) in
  (forall T fetch path init (res : Api.Response T),
      fetch (Api.request_of env path init) = Fulfilled res ->
      contract T res (Api.request env fetch path init))
  /\ (forall fetch payload res,
        fetch (Api.request_of env (lit "/recommend") (Api.recommend_init payload))
        = Fulfilled res ->
        contract _ res (Api.recommend env fetch payload))
  /\ (forall sd fetch id res,
        fetch (Api.request_of env (Api.getResearcher_path sd id) Api.getResearcher_init)
        = Fulfilled res ->
        contract _ res (Api.getResearcher env sd fetch id)).
Proof.
  intros contract.
  assert (main : forall T fetch path init (res : Api.Response T),
             fetch (Api.request_of env path init) = Fulfilled res ->
             contract T res (Api.request env fetch path init)).
  { intros T fetch path init res Hfetch. unfold Api.request. rewrite Hfetch.
    split; intros Hok.
    - rewrite (respond_not_ok res Hok). eexists. split; [ reflexivity | ].
      split; [ reflexivity | ]. split; [ | split ].
      + apply includes_middle.
      + exists (lit "API " ++ decimal (Api.status res) ++ lit ": "), [].
        rewrite app_nil_r, <- !app_assoc. reflexivity.
      + discriminate.
    - rewrite (respond_ok res Hok). split; [ reflexivity | ]. intros v Hv. exact Hv. }
  split; [ exact main | ].
  split.
  - intros fetch payload res. apply main.
  - intros sd fetch id res. apply main.
Qed.

Lemma request_outcome_witness :
  let none := {| Api.query := Home.payload Home.initial; Api.results := Some [] |} in
  let failed := {| Api.ok := false; Api.status := 503%N;
                   Api.text := lit "store unavailable";
                   Api.json := Fulfilled none |} in
  let succeeded := {| Api.ok := true; Api.status := 200%N; Api.text := [];
                      Api.json := Fulfilled none |} in
  Api.recommend None (fun _ => Fulfilled failed) (Home.payload Home.initial)
  = Rejected (ErrorObject (lit "Error") (lit "API 503: store unavailable"))
  /\ Api.recommend None (fun _ => Fulfilled succeeded) (Home.payload Home.initial)
     = Fulfilled none.
Proof.
  intros none failed succeeded.
  destruct (request_outcome None) as (_ & Hrecommend & _).
  split.
  - destruct (Hrecommend (fun _ => Fulfilled failed) (Home.payload Home.initial)
                failed eq_refl) as [Hbad _].
    destruct (Hbad eq_refl) as (message & Hout & Hmsg & _).
    rewrite Hout, Hmsg. reflexivity.
  - destruct (Hrecommend (fun _ => Fulfilled succeeded) (Home.payload Home.initial)
                succeeded eq_refl) as [_ Hgood].
    apply (proj2 (Hgood eq_refl)). reflexivity.
Defined.

(** ** The search handler *)

Lemma catch_text_message (e : thrown) (m : jsstring) :
  message_of e = Some m -> m <> [] -> Home.catch_text e = m.
Proof.
  unfold Home.catch_text. intros -> Hm.
  destruct m; [ congruence | reflexivity ].
Qed.

(** What the helper itself throws always carries its message. *)
Lemma catch_text_api_error (message : jsstring) :
  Home.catch_text (new_Error (lit "API " ++ message)) = lit "API " ++ message.
Proof. reflexivity. Qed.

(** C9: [run] always ends with the loading flag off; when [recommend]
    rejects, it ends with no results and with the error set from the
    failure: to its message, when it has one that is not empty (the string
    form of the failure stands in otherwise). *)
Theorem run_completes (env : option jsstring)
    (fetch : Api.Request -> settled (Api.Response Api.RecommendationResponse))
    (s : Home.state) :
  Home.loading (Home.run env fetch s) = false
  /\ (forall e,
        Api.recommend env fetch (Home.payload s) = Rejected e ->
        Home.items (Home.run env fetch s) = []
        /\ Home.error (Home.run env fetch s) = Some (Home.catch_text e)
        /\ (forall m, message_of e = Some m -> m <> [] ->
                      Home.error (Home.run env fetch s) = Some m)).
Proof.
  split; [ reflexivity | ].
  intros e He. unfold Home.run. rewrite He.
  cbn [Home.items Home.error Home.setItems Home.setError Home.setLoading].
  repeat split.
  intros m Hm Hne. rewrite (catch_text_message e Hm Hne). reflexivity.
Qed.

Lemma run_completes_witness :
  let res := {| Api.ok := false; Api.status := 500%N; Api.text := lit "boom";
                Api.json := Fulfilled {| Api.query := Home.payload Home.initial;
                                         Api.results := None |} |} in
  let fetch := fun _ : Api.Request => Fulfilled res in
  let s' := Home.run None fetch Home.initial in
  Home.loading s' = false /\ Home.items s' = []
  /\ Home.error s' = Some (lit "API 500: boom").
Proof.
  intros res fetch s'.
  destruct (run_completes None fetch Home.initial) as [Hloading Hrejected].
  destruct (Hrejected (new_Error (lit "API 500: boom")) eq_refl) as (Hitems & _ & Herror).
  split; [ exact Hloading | split; [ exact Hitems | ] ].
  apply Herror; [ reflexivity | discriminate ].
Defined.

(** ** The researcher route *)

Lemma route_differs (base rendered : jsstring) :
  base ++ lit "/researcher/" ++ rendered
  <> base ++ Api.readme_researcher_route rendered.
Proof.
  intros H. apply app_inv_head in H. discriminate H.
Qed.

(** C10: [getResearcher] hands [fetch] one request, a GET of
    [/researcher/<id>] under [API_BASE], and settles from its outcome; the
    URL is never that of the route of the README, [/researchers/<id>]. *)
Theorem getResearcher_route (env : option jsstring) (sd : Q -> jsstring) (id : number) :
  let sent :=
    {| Api.url := Api.API_BASE env ++ lit "/researcher/" ++ number_to_string sd id;
       Api.method := Some (lit "GET");
       Api.body := None;
       Api.headers := [(lit "Content-Type", lit "application/json")] |} in
  (forall fetch, Api.getResearcher env sd fetch id = Api.respond (fetch sent))
  /\ Api.url sent
     <> Api.API_BASE env ++ Api.readme_researcher_route (number_to_string sd id).
Proof.
  intros sent. split.
  - intros fetch. reflexivity.
  - apply route_differs.
Qed.

(** ** The researcher page *)

(** C7, as the page does it: the detail [getResearcher] resolves to is kept
    as received and rendered; the page shows the first twenty entries of
    the PC history and every recent publication, in the order received and
    with the fields received (a placeholder standing for a missing venue or
    year), and links the profile URL when there is one. *)
Theorem detail_presented (env : option jsstring) (sd : Q -> jsstring)
    (fetch : Api.Request -> settled (Api.Response Api.ResearcherDetail))
    (params_id : jsstring) (s : ResearcherPage.state) (d : Api.ResearcherDetail) :
  Api.getResearcher env sd fetch (Number params_id) = Fulfilled d ->
  let s' := ResearcherPage.effect env sd fetch params_id true s in
  ResearcherPage.r s' = Some d
  /\ exists v,
       ResearcherPage.render s' = ResearcherPage.Detail v
       /\ map ResearcherPage.pc_row_fields (ResearcherPage.pc_rows v)
          = firstn 20 (map ResearcherPage.pc_fields (or_empty (Api.pc_history d)))
       /\ map ResearcherPage.pub_title (ResearcherPage.publication_rows v)
          = map Api.title (or_empty (Api.recent_publications d))
       /\ map ResearcherPage.pub_venue (ResearcherPage.publication_rows v)
          = map (fun p => or_else (Api.venue p) (lit "Unknown venue"))
                (or_empty (Api.recent_publications d))
       /\ map ResearcherPage.pub_year (ResearcherPage.publication_rows v)
          = map (fun p => ResearcherPage.num_or (Api.pub_year p) (lit "?"))
                (or_empty (Api.recent_publications d))
       /\ (forall u, Api.person_profile_url d = Some u -> u <> [] ->
                     ResearcherPage.profile_href v = Some u).
Proof.
  intros Hget s'.
  assert (Hs' : s' = {| ResearcherPage.loading := false;
                        ResearcherPage.error := None;
                        ResearcherPage.r := Some d |}).
  { unfold s', ResearcherPage.effect. rewrite Hget. reflexivity. }
  rewrite Hs'. split; [ reflexivity | ].
  exists (ResearcherPage.render_detail d).
  split; [ reflexivity | ].
  unfold ResearcherPage.render_detail.
  cbn [ResearcherPage.pc_rows ResearcherPage.publication_rows ResearcherPage.profile_href].
  rewrite firstn_map, !map_map.
  repeat split.
  intros u Hu Hne. rewrite Hu. destruct u; [ congruence | reflexivity ].
Qed.

Lemma detail_presented_witness :
  let s' := ResearcherPage.effect None (fun _ => []) (Sample.serves Sample.long_serving)
              (lit "7") true ResearcherPage.initial in
  ResearcherPage.r s' = Some Sample.long_serving.
Proof.
  intros s'.
  apply (detail_presented None (fun _ => []) (Sample.serves Sample.long_serving)
           (lit "7") ResearcherPage.initial (d := Sample.long_serving)).
  reflexivity.
Defined.

(** C7, as stated, fails: of the twenty-one entries of a PC history the
    page presents twenty; the entry of 2021 is not shown. *)
Lemma detail_truncated :
  let s' := ResearcherPage.effect None (fun _ => []) (Sample.serves Sample.long_serving)
              (lit "7") true ResearcherPage.initial in
  exists v,
    ResearcherPage.render s' = ResearcherPage.Detail v
    /\ List.length (or_empty (Api.pc_history Sample.long_serving)) = 21%nat
    /\ List.length (ResearcherPage.pc_rows v) = 20%nat
    /\ map ResearcherPage.pc_row_fields (ResearcherPage.pc_rows v)
       <> map ResearcherPage.pc_fields (or_empty (Api.pc_history Sample.long_serving))
    /\ ~ In (lit "ICSE", Fin (inject_Z 2021), lit "PC member")
            (map ResearcherPage.pc_row_fields (ResearcherPage.pc_rows v)).
Proof.
  intros s'. eexists. split; [ reflexivity | ].
  split; [ reflexivity | ]. split; [ reflexivity | ]. split.
  - intros H. apply (f_equal (@List.length _)) in H. discriminate H.
  - vm_compute. intuition discriminate.
Qed.

(** ** The ranking engine *)

Section Ranking.

Variable w : Engine.Weights.
Variable signal : Api.breakdown_key -> Api.RecommendationQuery -> Engine.Researcher -> Q.

Lemma aggregate_finite (q : Api.RecommendationQuery) (r : Engine.Researcher) :
  exists t, Engine.aggregate w (Engine.breakdown signal q r) = Fin t.
Proof. eexists. reflexivity. Qed.

Lemma score_candidate_rated (q : Api.RecommendationQuery) (r : Engine.Researcher) :
  Engine.rated (Engine.score_candidate w signal q r).
Proof. apply aggregate_finite. Qed.

Lemma precedes_spec (a b : Engine.scored) (ta tb : Q) :
  Engine.total a = Fin ta -> Engine.total b = Fin tb ->
  Engine.precedes a b = true
  <-> (tb < ta)%Q
      \/ (ta == tb /\ (Engine.identity (Engine.who a) <= Engine.identity (Engine.who b))%Z).
Proof.
  intros Ha Hb. unfold Engine.precedes. rewrite Ha, Hb. cbn [num_ltb].
  destruct (Qcompare_spec tb ta) as [ E | L | G ];
    destruct (Qcompare_spec ta tb) as [ E' | L' | G' ];
    rewrite ?Z.leb_le; split; intros H; try lra;
    try (left; assumption); try (right; split; [ lra | assumption ]);
    try reflexivity; try discriminate;
    try (destruct H as [ H | [ H _ ] ]; lra);
    try (destruct H as [ H | [ _ H ] ]; [ lra | assumption ]).
Qed.

Lemma precedes_total (a b : Engine.scored) :
  Engine.rated a -> Engine.rated b -> Engine.precedes a b = true \/ Engine.precedes b a = true.
Proof.
  intros [ta Ha] [tb Hb].
  rewrite (precedes_spec a b Ha Hb), (precedes_spec b a Hb Ha).
  destruct (Qlt_le_dec tb ta) as [ L | L ]; [ left; left; exact L | ].
  destruct (Qlt_le_dec ta tb) as [ L' | L' ]; [ right; left; exact L' | ].
  assert (E : ta == tb) by lra.
  destruct (Z.le_ge_cases (Engine.identity (Engine.who a)) (Engine.identity (Engine.who b))).
  - left. right. split; assumption.
  - right. right. split; [ lra | assumption ].
Qed.

Lemma precedes_transitive (a b c : Engine.scored) :
  Engine.rated a -> Engine.rated b -> Engine.rated c ->
  Engine.precedes a b = true -> Engine.precedes b c = true ->
  Engine.precedes a c = true.
Proof.
  intros [ta Ha] [tb Hb] [tc Hc].
  rewrite (precedes_spec a b Ha Hb), (precedes_spec b c Hb Hc), (precedes_spec a c Ha Hc).
  intros [ H1 | [ E1 I1 ] ] [ H2 | [ E2 I2 ] ].
  - left. lra.
  - left. lra.
  - left. lra.
  - right. split; [ lra | lia ].
Qed.

Lemma precedes_antisymmetric (a b : Engine.scored) :
  Engine.rated a -> Engine.rated b ->
  Engine.precedes a b = true -> Engine.precedes b a = true ->
  Engine.identity (Engine.who a) = Engine.identity (Engine.who b).
Proof.
  intros [ta Ha] [tb Hb].
  rewrite (precedes_spec a b Ha Hb), (precedes_spec b a Hb Ha).
  intros [ H1 | [ E1 I1 ] ] [ H2 | [ E2 I2 ] ]; try lra. lia.
Qed.

End Ranking.

Lemma insert_permutation (x : Engine.scored) (l : list Engine.scored) :
  Permutation (Engine.insert x l) (x :: l).
Proof.
  induction l as [ | y t IH ]; simpl.
  - apply Permutation_refl.
  - destruct (Engine.precedes x y).
    + apply Permutation_refl.
    + apply perm_trans with (y :: x :: t).
      * apply perm_skip. exact IH.
      * apply perm_swap.
Qed.

Lemma sort_permutation (l : list Engine.scored) : Permutation (Engine.sort l) l.
Proof.
  induction l as [ | x t IH ]; simpl.
  - apply perm_nil.
  - apply perm_trans with (x :: Engine.sort t).
    + apply insert_permutation.
    + apply perm_skip. exact IH.
Qed.

Lemma insert_sorted (x : Engine.scored) (l : list Engine.scored) :
  Engine.rated x -> Forall Engine.rated l ->
  StronglySorted Engine.ranked_before l ->
  StronglySorted Engine.ranked_before (Engine.insert x l).
Proof.
  intros Hx Hl Hs. induction Hs as [ | y t Hs IH Hy ]; simpl.
  - constructor; constructor.
  - inversion Hl as [ | ? ? Hry Hrt ]; subst.
    destruct (Engine.precedes x y) eqn:E.
    + constructor; [ constructor; assumption | ].
      constructor; [ exact E | ].
      rewrite Forall_forall in Hy, Hrt |- *. intros z Hz.
      apply (precedes_transitive Hx Hry (Hrt z Hz) E (Hy z Hz)).
    + constructor; [ apply IH; exact Hrt | ].
      apply (Permutation_Forall (Permutation_sym (insert_permutation x t))).
      constructor; [ | exact Hy ].
      destruct (precedes_total Hx Hry) as [ H | H ]; [ congruence | exact H ].
Qed.

Lemma sort_sorted (l : list Engine.scored) :
  Forall Engine.rated l -> StronglySorted Engine.ranked_before (Engine.sort l).
Proof.
  induction l as [ | x t IH ]; simpl; intros H.
  - constructor.
  - inversion H as [ | ? ? Hx Ht ]; subst.
    apply insert_sorted; [ exact Hx | | apply IH; exact Ht ].
    apply (Permutation_Forall (Permutation_sym (sort_permutation t))). exact Ht.
Qed.

(** Two rankings of the same candidates are the same list, when no two
    candidates can precede each other. *)
Lemma sorted_unique (l1 l2 : list Engine.scored) :
  StronglySorted Engine.ranked_before l1 -> StronglySorted Engine.ranked_before l2 ->
  Permutation l1 l2 ->
  (forall a b, In a l1 -> In b l1 -> Engine.ranked_before a b -> Engine.ranked_before b a -> a = b) ->
  l1 = l2.
Proof.
  intros H1. revert l2.
  induction H1 as [ | a t1 Ht1 IH Ha ]; intros l2 H2 Hp Hanti.
  - apply Permutation_nil in Hp. symmetry. exact Hp.
  - destruct H2 as [ | b t2 Ht2 Hb ].
    + apply Permutation_sym, Permutation_nil in Hp. discriminate Hp.
    + assert (E : a = b).
      { assert (Hin_a : In a (b :: t2)) by (apply (Permutation_in a Hp); left; reflexivity).
        assert (Hin_b : In b (a :: t1))
          by (apply (Permutation_in b (Permutation_sym Hp)); left; reflexivity).
        destruct Hin_a as [ E | Hin_a ]; [ symmetry; exact E | ].
        destruct Hin_b as [ E | Hin_b ]; [ exact E | ].
        rewrite Forall_forall in Ha, Hb.
        apply Hanti.
        - left. reflexivity.
        - right. exact Hin_b.
        - apply Ha. exact Hin_b.
        - apply Hb. exact Hin_a. }
      subst b. f_equal.
      apply IH.
      * exact Ht2.
      * apply (Permutation_cons_inv Hp).
      * intros x y Hx Hy. apply Hanti; right; assumption.
Qed.

Lemma identity_injective (l : list Engine.Researcher) (a b : Engine.Researcher) :
  NoDup (map Engine.identity l) -> In a l -> In b l ->
  Engine.identity a = Engine.identity b -> a = b.
Proof.
  induction l as [ | x t IH ]; simpl; intros Hnd Ha Hb E; [ contradiction | ].
  inversion Hnd as [ | ? ? Hnotin Hnd' ]; subst.
  destruct Ha as [ -> | Ha ]; destruct Hb as [ -> | Hb ].
  - reflexivity.
  - destruct Hnotin. rewrite E. apply in_map. exact Hb.
  - destruct Hnotin. rewrite <- E. apply in_map. exact Ha.
  - apply IH; assumption.
Qed.

Lemma ranking_reorders (w : Engine.Weights)
    (signal : Api.breakdown_key -> Api.RecommendationQuery -> Engine.Researcher -> Q)
    (q : Api.RecommendationQuery) (set : list Engine.Researcher) (s : Engine.scored) :
  In s (Engine.sort (map (Engine.score_candidate w signal q) set)) ->
  exists r, In r set /\ s = Engine.score_candidate w signal q r.
Proof.
  intros H. apply (Permutation_in s (sort_permutation _)) in H.
  apply in_map_iff in H. destruct H as (r & <- & Hr). exists r. split; [ exact Hr | reflexivity ].
Qed.

Lemma aggregate_recombination (w : Engine.Weights)
    (signal : Api.breakdown_key -> Api.RecommendationQuery -> Engine.Researcher -> Q)
    (q : Api.RecommendationQuery) (r : Engine.Researcher) :
  num_eq (Engine.aggregate w (Engine.breakdown signal q r))
         (Explain.recombination w (Engine.breakdown signal q r)).
Proof.
  unfold Engine.aggregate, Explain.recombination, Engine.signals, Engine.breakdown.
  cbn [fold_left Api.field num_add num_mul num_eq
       Api.topic_sim Api.semantic_score Api.pub_recency_score Api.pc_recency_score
       Api.impact_score Api.pagerank_score Api.experience_score Api.newcomer_score].
  ring.
Qed.

(** C1: in every response of the ranking service, each result has for score
    the aggregate of its own breakdown under the weights in force, which is
    the weighted sum of the eight fields; the breakdown is the one the
    signal computers gave for a candidate of the query, unchanged. *)
Theorem score_reproducible (w : Engine.Weights)
    (signal : Api.breakdown_key -> Api.RecommendationQuery -> Engine.Researcher -> Q)
    (q : Api.RecommendationQuery) (resolve : Api.RecommendationQuery -> Engine.resolved)
    (response : Api.RecommendationResponse) :
  Engine.recommend w signal q resolve = inr response ->
  Forall (fun it =>
            Api.score it = Engine.aggregate w (Api.score_breakdown it)
            /\ num_eq (Api.score it) (Explain.recombination w (Api.score_breakdown it))
            /\ exists set r,
                 resolve q = Engine.Candidates set /\ In r set
                 /\ Api.researcher it = Engine.summary r
                 /\ Api.score_breakdown it = Engine.breakdown signal q r)
         (or_empty (Api.results response)).
Proof.
  unfold Engine.recommend.
  destruct (negb (Engine.well_formed q)); [ discriminate | ].
  destruct (resolve q) as [ | set ]; [ discriminate | ].
  intros H. injection H as <-. cbn [Api.results or_empty].
  apply Forall_forall. intros it Hit.
  apply in_map_iff in Hit. destruct Hit as (s & <- & Hs).
  apply ranking_reorders in Hs. destruct Hs as (r & Hr & ->).
  split; [ reflexivity | split ].
  - apply aggregate_recombination.
  - exists set, r. repeat split. exact Hr.
Qed.

(** C2: two runs of the ranking service on the same query over the same
    snapshot return the same response, the same results in the same order:
    when the candidates are resolved alike, and also when the store yields
    the same candidates, each with an identifier of its own, in another
    order. *)
Theorem ranking_deterministic (w : Engine.Weights)
    (signal : Api.breakdown_key -> Api.RecommendationQuery -> Engine.Researcher -> Q)
    (q : Api.RecommendationQuery)
    (first second : Api.RecommendationQuery -> Engine.resolved) :
  (first q = second q ->
   Engine.recommend w signal q first = Engine.recommend w signal q second)
  /\ (forall set1 set2 : list Engine.Researcher,
        first q = Engine.Candidates set1 ->
        second q = Engine.Candidates set2 ->
        NoDup (map Engine.identity set1) ->
        Permutation set1 set2 ->
        Engine.recommend w signal q first = Engine.recommend w signal q second).
Proof.
  split.
  { intros H. unfold Engine.recommend. rewrite H. reflexivity. }
  intros set1 set2 H1 H2 Hnd Hp. unfold Engine.recommend. rewrite H1, H2.
  destruct (negb (Engine.well_formed q)); [ reflexivity | ].
  do 4 f_equal.
  set (score := Engine.score_candidate w signal q).
  assert (Hrated : forall l, Forall Engine.rated (map score l)).
  { intros l. apply Forall_forall. intros s Hs.
    apply in_map_iff in Hs. destruct Hs as (r & <- & _).
    apply score_candidate_rated. }
  apply sorted_unique.
  - apply sort_sorted, Hrated.
  - apply sort_sorted, Hrated.
  - apply perm_trans with (map score set1); [ apply sort_permutation | ].
    apply perm_trans with (map score set2); [ apply Permutation_map; exact Hp | ].
    apply Permutation_sym, sort_permutation.
  - intros a b Ha Hb Hab Hba.
    apply ranking_reorders in Ha. destruct Ha as (ra & Hra & ->).
    apply ranking_reorders in Hb. destruct Hb as (rb & Hrb & ->).
    f_equal.
    apply (identity_injective set1 ra rb Hnd Hra Hrb).
    apply (precedes_antisymmetric
             (score_candidate_rated w signal q ra)
             (score_candidate_rated w signal q rb) Hab Hba).
Qed.

Lemma floor_negative (y : Q) : (y < 0)%Q -> (Qfloor y < 0)%Z.
Proof.
  intros H. rewrite Zlt_Qlt.
  apply Qle_lt_trans with y; [ apply Qfloor_le | exact H ].
Qed.

(** C4: a query whose [years_back] is negative is answered with an input
    error that names the field, whatever resolving the candidates would
    give, an unreachable store included: the candidates are not resolved,
    and no ranking is made of the query. *)
Theorem negative_years_back_rejected (w : Engine.Weights)
    (signal : Api.breakdown_key -> Api.RecommendationQuery -> Engine.Researcher -> Q)
    (q : Api.RecommendationQuery) :
  num_ltb (Api.years_back q) (Fin 0) = true ->
  forall resolve : Api.RecommendationQuery -> Engine.resolved,
    Engine.recommend w signal q resolve = inl (Engine.InputError Engine.years_back_description)
    /\ includes Engine.years_back_description (lit "years_back")
    /\ (forall response, Engine.recommend w signal q resolve <> inr response).
Proof.
  intros Hneg resolve.
  assert (Hbad : Engine.well_formed q = false).
  { unfold Engine.well_formed.
    destruct (Api.years_back q) as [ | | | y ]; try reflexivity.
    apply ltb_fin in Hneg. apply floor_negative in Hneg.
    apply andb_false_iff. right. apply Z.ltb_ge. lia. }
  unfold Engine.recommend. rewrite Hbad. cbn [negb].
  split; [ reflexivity | split ].
  - exists [], (lit " must be a positive integer"). reflexivity.
  - discriminate.
Qed.

Lemma score_reproducible_witness :
  exists response,
    Engine.recommend Sample.weights Sample.signal (Home.payload Sample.form)
      (fun _ => Engine.Candidates [Sample.B; Sample.A; Sample.C]) = inr response
    /\ map (fun it => Api.id (Api.researcher it)) (or_empty (Api.results response))
       = [Fin 1; Fin 2; Fin 3]
    /\ Forall (fun it => num_eq (Api.score it)
                                (Explain.recombination Sample.weights (Api.score_breakdown it)))
              (or_empty (Api.results response)).
Proof.
  eexists. split; [ reflexivity | ]. split; [ reflexivity | ].
  eapply Forall_impl;
    [ | apply (score_reproducible Sample.weights Sample.signal (Home.payload Sample.form)
                 (fun _ => Engine.Candidates [Sample.B; Sample.A; Sample.C])); reflexivity ].
  intros it (_ & H & _). exact H.
Defined.

Lemma ranking_deterministic_witness :
  Engine.recommend Sample.weights Sample.signal (Home.payload Sample.form)
    (fun _ => Engine.Candidates [Sample.A; Sample.B; Sample.C])
  = Engine.recommend Sample.weights Sample.signal (Home.payload Sample.form)
      (fun _ => Engine.Candidates [Sample.C; Sample.A; Sample.B]).
Proof.
  apply (proj2 (ranking_deterministic Sample.weights Sample.signal
                  (Home.payload Sample.form)
                  (fun _ => Engine.Candidates [Sample.A; Sample.B; Sample.C])
                  (fun _ => Engine.Candidates [Sample.C; Sample.A; Sample.B]))
           [Sample.A; Sample.B; Sample.C] [Sample.C; Sample.A; Sample.B]).
  - reflexivity.
  - reflexivity.
  - repeat constructor; simpl; intuition discriminate.
  - apply Permutation_sym. apply (Permutation_cons_append [Sample.A; Sample.B] Sample.C).
Defined.

Lemma negative_years_back_rejected_witness :
  let q := Home.payload (Home.setYearsBack (lit "-5") Sample.form) in
  Api.years_back q = Fin (-5)
  /\ Engine.recommend Sample.weights Sample.signal q (fun _ => Engine.Unreachable)
     = inl (Engine.InputError (lit "years_back must be a positive integer")).
Proof.
  intros q. split; [ reflexivity | ].
  apply (negative_years_back_rejected Sample.weights Sample.signal q eq_refl
           (fun _ => Engine.Unreachable)).
Defined.

(** * More of the client *)

(** ** The headers and the base of a request *)

Lemma streq_true (a b : jsstring) : streq a b = true <-> a = b.
Proof.
  unfold streq. destruct (list_eq_dec N.eq_dec a b); split; congruence.
Qed.

Lemma streq_false (a b : jsstring) : streq a b = false <-> a <> b.
Proof.
  unfold streq. destruct (list_eq_dec N.eq_dec a b); split; congruence.
Qed.

Lemma set_header_key (h : Api.headers_init) (k v x : jsstring) :
  In x (map fst (Api.set_header h k v)) -> x = k \/ In x (map fst h).
Proof.
  induction h as [ | [k' v'] r IH ]; simpl.
  - intros [ <- | [] ]. left. reflexivity.
  - destruct (streq k' k) eqn:E; simpl.
    + apply streq_true in E. subst k'. intros [ <- | H ]; auto.
    + intros [ <- | H ]; [ auto | ]. destruct (IH H); auto.
Qed.

Lemma set_header_distinct (h : Api.headers_init) (k v : jsstring) :
  NoDup (map fst h) -> NoDup (map fst (Api.set_header h k v)).
Proof.
  induction h as [ | [k' v'] r IH ]; simpl; intros Hnd.
  - constructor; [ intros [] | constructor ].
  - inversion Hnd as [ | ? ? Hnotin Hr ]; subst.
    destruct (streq k' k) eqn:E; simpl.
    + apply streq_true in E. subst k'. constructor; assumption.
    + apply streq_false in E. constructor; [ | apply IH; exact Hr ].
      intros Hin. apply set_header_key in Hin. destruct Hin as [ -> | Hin ]; auto.
Qed.

Lemma set_header_sets (h : Api.headers_init) (k v : jsstring) :
  In (k, v) (Api.set_header h k v).
Proof.
  induction h as [ | [k' v'] r IH ]; simpl.
  - left. reflexivity.
  - destruct (streq k' k); [ left; reflexivity | right; exact IH ].
Qed.

Lemma set_header_keeps (h : Api.headers_init) (k v k' v' : jsstring) :
  In (k', v') h -> k' <> k -> In (k', v') (Api.set_header h k v).
Proof.
  induction h as [ | [k0 v0] r IH ]; simpl; intros Hin Hne; [ contradiction | ].
  destruct (streq k0 k) eqn:E.
  - apply streq_true in E. subst k0.
    destruct Hin as [ Heq | Hin ]; [ congruence | right; exact Hin ].
  - destruct Hin as [ Heq | Hin ]; [ left; exact Heq | right; apply IH; assumption ].
Qed.

Lemma spread_distinct (a b : Api.headers_init) :
  NoDup (map fst a) -> NoDup (map fst (Api.spread a b)).
Proof.
  unfold Api.spread. revert a.
  induction b as [ | [k v] r IH ]; simpl; intros a Ha; [ exact Ha | ].
  apply IH. apply set_header_distinct. exact Ha.
Qed.

Lemma spread_keeps (a b : Api.headers_init) (k v : jsstring) :
  In (k, v) a -> ~ In k (map fst b) -> In (k, v) (Api.spread a b).
Proof.
  unfold Api.spread. revert a.
  induction b as [ | [k0 v0] r IH ]; simpl; intros a Ha Hb; [ exact Ha | ].
  apply IH.
  - apply set_header_keeps; [ exact Ha | ]. intros E. apply Hb. left. symmetry. exact E.
  - intros Hin. apply Hb. right. exact Hin.
Qed.

Lemma spread_overrides (a b : Api.headers_init) (k v : jsstring) :
  NoDup (map fst b) -> In (k, v) b -> In (k, v) (Api.spread a b).
Proof.
  revert a. induction b as [ | [k0 v0] r IH ]; intros a Hnd Hin; [ contradiction | ].
  inversion Hnd as [ | ? ? Hnotin Hr ]; subst.
  change (Api.spread a ((k0, v0) :: r)) with (Api.spread (Api.set_header a k0 v0) r).
  destruct Hin as [ Heq | Hin ].
  - injection Heq as -> ->. apply spread_keeps; [ apply set_header_sets | exact Hnotin ].
  - apply IH; assumption.
Qed.

(** X1: the header object of every request has each name once; it carries
    every header of the caller, and [Content-Type: application/json] unless
    the caller gives a [Content-Type] of its own. *)
Theorem request_headers (env : option jsstring) (path : jsstring) (init : Api.RequestInit) :
  let sent := Api.headers (Api.request_of env path init) in
  NoDup (map fst sent)
  /\ (forall h k v,
        Api.init_headers init = Some h -> NoDup (map fst h) ->
        In (k, v) h -> In (k, v) sent)
  /\ ((forall h, Api.init_headers init = Some h ->
                 ~ In (lit "Content-Type") (map fst h)) ->
      In (lit "Content-Type", lit "application/json") sent).
Proof.
  intros sent. unfold sent, Api.request_of. cbn [Api.headers].
  split; [ | split ].
  - apply spread_distinct. repeat constructor. intros [].
  - intros h k v Hh Hnd Hin. rewrite Hh. apply spread_overrides; assumption.
  - intros Habsent. apply spread_keeps; [ left; reflexivity | ].
    destruct (Api.init_headers init) as [ h | ]; [ apply (Habsent h eq_refl) | intros [] ].
Qed.

Lemma request_headers_witness :
  let init := {| Api.init_method := Some (lit "GET"); Api.init_body := None;
                 Api.init_headers :=
                   Some [(lit "Accept", lit "text/plain");
                         (lit "Content-Type", lit "text/plain")] |} in
  Api.headers (Api.request_of None (lit "/x") init)
  = [(lit "Content-Type", lit "text/plain"); (lit "Accept", lit "text/plain")]
  /\ In (lit "Content-Type", lit "text/plain")
        (Api.headers (Api.request_of None (lit "/x") init))
  /\ In (lit "Content-Type", lit "application/json")
        (Api.headers (Api.request_of None (lit "/recommend")
                        (Api.recommend_init (Home.payload Home.initial)))).
Proof.
  intros init. split; [ reflexivity | split ].
  - apply (proj1 (proj2 (request_headers None (lit "/x") init))
             [(lit "Accept", lit "text/plain"); (lit "Content-Type", lit "text/plain")]).
    + reflexivity.
    + repeat constructor; simpl; intuition discriminate.
    + right. left. reflexivity.
  - apply (proj2 (proj2 (request_headers None (lit "/recommend")
                           (Api.recommend_init (Home.payload Home.initial))))).
    intros h Hh. discriminate Hh.
Defined.

(** X2: the base of every URL is never empty: the variable of the
    environment when it is set and not empty, [http://localhost:8000]
    otherwise; the three addresses of the module are that base followed by
    [/recommend], [/researcher/<id>] and [/docs]. *)
Theorem API_BASE_fallback (env : option jsstring) :
  Api.API_BASE env <> []
  /\ (forall base, env = Some base -> base <> [] -> Api.API_BASE env = base)
  /\ (env = None \/ env = Some [] -> Api.API_BASE env = lit "http://localhost:8000")
  /\ (forall payload,
        Api.url (Api.request_of env (lit "/recommend") (Api.recommend_init payload))
        = Api.API_BASE env ++ lit "/recommend")
  /\ (forall sd id,
        Api.url (Api.request_of env (Api.getResearcher_path sd id) Api.getResearcher_init)
        = Api.API_BASE env ++ lit "/researcher/" ++ number_to_string sd id)
  /\ Api.apiDocsUrl env = Api.API_BASE env ++ lit "/docs".
Proof.
  split; [ | split; [ | split; [ | repeat split ] ] ].
  - unfold Api.API_BASE, or_else. destruct env as [ [ | c r ] | ]; discriminate.
  - intros base -> Hne. destruct base; [ congruence | reflexivity ].
  - intros [ -> | -> ]; reflexivity.
Qed.

Lemma API_BASE_fallback_witness :
  Api.API_BASE (Some (lit "https://api.example.org")) = lit "https://api.example.org"
  /\ Api.apiDocsUrl (Some []) = lit "http://localhost:8000/docs".
Proof.
  split.
  - apply (proj1 (proj2 (API_BASE_fallback (Some (lit "https://api.example.org"))))
             (lit "https://api.example.org") eq_refl). discriminate.
  - destruct (API_BASE_fallback (Some [])) as (_ & _ & Hdefault & _ & _ & Hdocs).
    rewrite Hdocs, Hdefault; [ reflexivity | right; reflexivity ].
Defined.

(** ** A search, from the click to the page *)

(** X3: a search changes nothing but the loading flag, the error and the
    results: the four inputs, the modal and the selected result are as they
    were, whatever the network does. *)
Theorem run_frame (env : option jsstring)
    (fetch : Api.Request -> settled (Api.Response Api.RecommendationResponse))
    (s : Home.state) :
  let s' := Home.run env fetch s in
  Home.conference s' = Home.conference s
  /\ Home.year s' = Home.year s
  /\ Home.yearsBack s' = Home.yearsBack s
  /\ Home.topics s' = Home.topics s
  /\ Home.openModal s' = Home.openModal s
  /\ Home.selected s' = Home.selected s
  /\ Home.payload s' = Home.payload s.
Proof.
  unfold Home.run.
  destruct (Api.recommend env fetch (Home.payload s)); repeat split.
Qed.

(** X4: when the response is ok and its body parses, the search ends with
    the results of the body, none when the body has no [results], with the
    earlier error cleared and the loading flag off. *)
Theorem run_succeeds (env : option jsstring)
    (fetch : Api.Request -> settled (Api.Response Api.RecommendationResponse))
    (s : Home.state) (res : Api.Response Api.RecommendationResponse)
    (parsed : Api.RecommendationResponse) :
  fetch (Api.request_of env (lit "/recommend") (Api.recommend_init (Home.payload s)))
  = Fulfilled res ->
  Api.ok res = true -> Api.json res = Fulfilled parsed ->
  let s' := Home.run env fetch s in
  Home.items s' = or_empty (Api.results parsed)
  /\ (Api.results parsed = None -> Home.items s' = [])
  /\ Home.error s' = None
  /\ Home.loading s' = false.
Proof.
  intros Hfetch Hok Hjson s'.
  assert (E : Api.recommend env fetch (Home.payload s) = Fulfilled parsed).
  { unfold Api.recommend, Api.request. rewrite Hfetch, (respond_ok res Hok). exact Hjson. }
  unfold s', Home.run. rewrite E. repeat split.
  intros Hnone. cbn [Home.items Home.setItems Home.setLoading]. rewrite Hnone. reflexivity.
Qed.

Lemma run_succeeds_witness :
  let stale := Home.setItems [] (Home.setError (Some (lit "API 500: boom")) Sample.form) in
  let parsed := {| Api.query := Home.payload stale; Api.results := None |} in
  let res := {| Api.ok := true; Api.status := 200%N; Api.text := [];
                Api.json := Fulfilled parsed |} in
  let s' := Home.run None (fun _ => Fulfilled res) stale in
  Home.items s' = [] /\ Home.error s' = None /\ Home.loading s' = false.
Proof.
  intros stale parsed res s'.
  destruct (@run_succeeds None (fun _ => Fulfilled res) stale res parsed eq_refl eq_refl eq_refl)
    as (_ & Hnone & Herror & Hloading).
  split; [ apply Hnone; reflexivity | split; assumption ].
Defined.

Lemma catch_text_empty (e : thrown) :
  Home.catch_text e = [] <-> e = ErrorObject [] [] \/ e = OtherValue [].
Proof.
  split.
  - destruct e as [ name message | text ]; unfold Home.catch_text; simpl.
    + destruct message as [ | c m ]; simpl; [ | discriminate ].
      destruct name; [ auto | discriminate ].
    + intros ->. auto.
  - intros [ -> | -> ]; reflexivity.
Qed.

(** X5: when the response is not ok, the search ends with the earlier
    results gone; the page then shows [API <status>: <body text>] in the
    error box, the placeholder of an empty list, a count of zero and the
    button back to [Search]. *)
Theorem run_fails_on_status (env : option jsstring) (sd : Q -> jsstring)
    (fetch : Api.Request -> settled (Api.Response Api.RecommendationResponse))
    (s : Home.state) (res : Api.Response Api.RecommendationResponse) :
  fetch (Api.request_of env (lit "/recommend") (Api.recommend_init (Home.payload s)))
  = Fulfilled res ->
  Api.ok res = false ->
  let page := HomeView.render env sd (Home.run env fetch s) in
  HomeView.error_box page
  = Some (lit "API " ++ decimal (Api.status res) ++ lit ": " ++ Api.text res)
  /\ HomeView.results page = HomeView.NoResultsYet
  /\ HomeView.count page = lit "0 candidates"
  /\ HomeView.button_disabled page = false
  /\ HomeView.button_label page = lit "Search".
Proof.
  intros Hfetch Hok page.
  assert (E : Api.recommend env fetch (Home.payload s)
              = Rejected (new_Error (lit "API " ++ decimal (Api.status res)
                                     ++ lit ": " ++ Api.text res))).
  { unfold Api.recommend, Api.request. rewrite Hfetch. apply respond_not_ok. exact Hok. }
  unfold page, Home.run. rewrite E. repeat split.
Qed.

Lemma run_fails_on_status_witness :
  let res := {| Api.ok := false; Api.status := 422%N;
                Api.text := lit "years_back must be positive";
                Api.json := Rejected (OtherValue []) |} in
  HomeView.error_box
    (HomeView.render None (fun _ => [])
       (Home.run None (fun _ => Fulfilled res)
          (Home.setYearsBack (lit "-5") Sample.form)))
  = Some (lit "API 422: years_back must be positive").
Proof.
  intros res.
  apply (@run_fails_on_status None (fun _ => []) (fun _ => Fulfilled res)
           (Home.setYearsBack (lit "-5") Sample.form) res eq_refl eq_refl).
Defined.

(** X6: after a search that was rejected, the page shows the text of the
    failure in the error box, except when that text is empty, which it is
    for an [Error] without name and message and for a thrown value whose
    string form is empty, and for no other failure: then no error box is
    shown at all, over the placeholder of an empty list. *)
Theorem run_rejected_view (env : option jsstring) (sd : Q -> jsstring)
    (fetch : Api.Request -> settled (Api.Response Api.RecommendationResponse))
    (s : Home.state) (e : thrown) :
  Api.recommend env fetch (Home.payload s) = Rejected e ->
  let page := HomeView.render env sd (Home.run env fetch s) in
  HomeView.results page = HomeView.NoResultsYet
  /\ (Home.catch_text e <> [] -> HomeView.error_box page = Some (Home.catch_text e))
  /\ (HomeView.error_box page = None <-> e = ErrorObject [] [] \/ e = OtherValue []).
Proof.
  intros He page. unfold page, Home.run. rewrite He.
  cbn [HomeView.render HomeView.results HomeView.error_box
       Home.items Home.error Home.setItems Home.setError Home.setLoading].
  split; [ reflexivity | ].
  rewrite <- catch_text_empty.
  destruct (Home.catch_text e) as [ | c t ]; split.
  - congruence.
  - split; reflexivity.
  - reflexivity.
  - split; discriminate.
Qed.

Lemma run_rejected_view_witness :
  let fetch := fun _ : Api.Request =>
                 @Rejected (Api.Response Api.RecommendationResponse)
                           (ErrorObject (lit "TypeError") (lit "Failed to fetch")) in
  HomeView.error_box (HomeView.render None (fun _ => []) (Home.run None fetch Sample.form))
  = Some (lit "Failed to fetch").
Proof.
  intros fetch.
  apply (proj1 (proj2 (@run_rejected_view None (fun _ => []) fetch Sample.form
                         (ErrorObject (lit "TypeError") (lit "Failed to fetch"))
                         eq_refl))).
  discriminate.
Defined.

(** X7: while the call is awaited the button is disabled and reads
    [Searching...], no error box is shown, and the results of the search
    before are still listed; [run] completes from that state. *)
Theorem pending_view (env : option jsstring) (sd : Q -> jsstring)
    (fetch : Api.Request -> settled (Api.Response Api.RecommendationResponse))
    (s : Home.state) :
  let page := HomeView.render env sd (HomeView.pending s) in
  HomeView.button_disabled page = true
  /\ HomeView.button_label page = lit "Searching..."
  /\ HomeView.error_box page = None
  /\ HomeView.results page = HomeView.results (HomeView.render env sd s)
  /\ HomeView.count page = HomeView.count (HomeView.render env sd s)
  /\ Home.run env fetch s
     = Home.setLoading false
         match Api.recommend env fetch (Home.payload s) with
         | Fulfilled res => Home.setItems (or_empty (Api.results res)) (HomeView.pending s)
         | Rejected e =>
             Home.setItems [] (Home.setError (Some (Home.catch_text e)) (HomeView.pending s))
         end.
Proof. repeat split. Qed.

(** ** The list of results and the breakdown modal *)

(** X8: the page lists the results in the order of the state, one entry
    per result and none left out, each with at most eight topic tags, the
    first ones; it shows the placeholder exactly when there is no result;
    the count is the number of results. *)
Theorem results_listed (env : option jsstring) (sd : Q -> jsstring) (s : Home.state) :
  let page := HomeView.render env sd s in
  (HomeView.results page = HomeView.NoResultsYet <-> Home.items s = [])
  /\ (forall entries,
        HomeView.results page = HomeView.Results entries ->
        map HomeView.explains entries = Home.items s
        /\ Forall (fun entry =>
                     (List.length (HomeView.topic_tags entry) <= 8)%nat
                     /\ exists rest,
                          or_empty (Api.researcher_topics
                                      (Api.researcher (HomeView.explains entry)))
                          = HomeView.topic_tags entry ++ rest)
                  entries)
  /\ HomeView.count page
     = decimal (N.of_nat (List.length (Home.items s))) ++ lit " candidates".
Proof.
  intros page. unfold page, HomeView.render. cbn [HomeView.results HomeView.count].
  split; [ | split; [ | reflexivity ] ].
  - destruct (Home.items s); split; congruence.
  - intros entries Hentries.
    assert (E : entries = map (HomeView.render_result sd) (Home.items s)).
    { destruct (Home.items s); [ discriminate | ]. injection Hentries as <-. reflexivity. }
    rewrite E. split.
    + rewrite map_map. apply map_id.
    + apply Forall_forall. intros entry Hin.
      apply in_map_iff in Hin. destruct Hin as (it & <- & _).
      cbn [HomeView.render_result HomeView.topic_tags HomeView.explains].
      split.
      * apply firstn_le_length.
      * exists (skipn 8 (or_empty (Api.researcher_topics (Api.researcher it)))).
        symmetry. apply firstn_skipn.
Qed.

Lemma results_listed_witness :
  exists entries,
    HomeView.results
      (HomeView.render None (fun _ => []) (Home.setItems [Sample.item] Sample.form))
    = HomeView.Results entries
    /\ map HomeView.explains entries = [Sample.item]
    /\ map HomeView.href entries = [lit "/researcher/41"]
    /\ map HomeView.total_score entries = [lit "0.3500"]
    /\ map HomeView.affiliation_pill entries = [lit "Unknown affiliation"]
    /\ map HomeView.topic_tags entries
       = [map lit ["a"; "b"; "c"; "d"; "e"; "f"; "g"; "h"]%string].
Proof.
  eexists. split; [ reflexivity | ]. split; [ | repeat split ].
  apply (proj1 (proj2 (results_listed None (fun _ => [])
                         (Home.setItems [Sample.item] Sample.form))) _ eq_refl).
Defined.

(** X9: Explain on a result opens the modal on the breakdown of that
    result, its eight rows in the order of the fields; closing the modal
    hides it and keeps the selection; neither touches the results, the
    error, the loading flag or the inputs. *)
Theorem explain_then_close (env : option jsstring) (sd : Q -> jsstring)
    (it : Api.RecommendationItem) (s : Home.state) :
  let opened := HomeView.explain it s in
  let closed := HomeView.close opened in
  HomeView.breakdown_modal (HomeView.render env sd opened)
  = Some {| HomeView.modal_title := lit "Score breakdown";
            HomeView.modal_children :=
              Some (Home.ScoreBreakdownView sd (Api.score_breakdown it)) |}
  /\ map Home.shown_key (Home.ScoreBreakdownView sd (Api.score_breakdown it))
     = [ Api.key_topic_sim; Api.key_semantic_score; Api.key_pub_recency_score;
         Api.key_pc_recency_score; Api.key_impact_score; Api.key_pagerank_score;
         Api.key_experience_score; Api.key_newcomer_score ]
  /\ HomeView.breakdown_modal (HomeView.render env sd closed) = None
  /\ Home.selected closed = Some it
  /\ HomeView.results (HomeView.render env sd closed)
     = HomeView.results (HomeView.render env sd s)
  /\ HomeView.error_box (HomeView.render env sd closed)
     = HomeView.error_box (HomeView.render env sd s)
  /\ HomeView.button_disabled (HomeView.render env sd closed)
     = HomeView.button_disabled (HomeView.render env sd s)
  /\ Home.payload closed = Home.payload s.
Proof. repeat split. Qed.

(** ** Bars *)

Lemma clamp01_above (x : Q) : (1 <= x)%Q -> Home.clamp01 (Fin x) = Fin 1.
Proof.
  intros Hx. rewrite clamp01_min_max.
  unfold Qmax, Qmin, GenericMinMax.gmax, GenericMinMax.gmin.
  destruct (Qcompare_spec 1 x) as [ E | L | G ]; try reflexivity. lra.
Qed.

Lemma Progress_finite (x : Q) :
  Home.Progress (Fin x)
  = {| Home.bar_width := Home.Percent (Fin (Qmax 0 (Qmin 1 x) * 100)) |}.
Proof. unfold Home.Progress. rewrite clamp01_min_max. reflexivity. Qed.

Lemma Progress_range (x : number) :
  x <> NaN ->
  exists p, Home.Progress x = {| Home.bar_width := Home.Percent (Fin p) |}
            /\ (0 <= p <= 100)%Q.
Proof.
  intros Hx. destruct x as [ | | | x ].
  - congruence.
  - exists 100. split; [ reflexivity | lra ].
  - exists 0. split; [ reflexivity | lra ].
  - exists (Qmax 0 (Qmin 1 x) * 100). split.
    + apply Progress_finite.
    + pose proof (clamp01_range x). lra.
Qed.

(** X10: the bar of a value that is not NaN is between 0 and 100 percent
    wide, the infinities included; the bar of NaN has the width NaN.  The
    width is 0 for -Infinity and for every value up to 0, 100 for +Infinity
    and for every value from 1 on, and a larger value never has a narrower
    bar. *)
Theorem progress_bounded :
  (forall x, x <> NaN ->
     exists p, Home.Progress x = {| Home.bar_width := Home.Percent (Fin p) |}
               /\ (0 <= p <= 100)%Q)
  /\ Home.Progress NaN = {| Home.bar_width := Home.Percent NaN |}
  /\ Home.Progress NegInfinity = {| Home.bar_width := Home.Percent (Fin 0) |}
  /\ Home.Progress PosInfinity = {| Home.bar_width := Home.Percent (Fin 100) |}
  /\ (forall x, (x <= 0)%Q ->
        Home.Progress (Fin x) = {| Home.bar_width := Home.Percent (Fin 0) |})
  /\ (forall x, (1 <= x)%Q ->
        Home.Progress (Fin x) = {| Home.bar_width := Home.Percent (Fin 100) |})
  /\ (forall x y p q, (x <= y)%Q ->
        Home.Progress (Fin x) = {| Home.bar_width := Home.Percent (Fin p) |} ->
        Home.Progress (Fin y) = {| Home.bar_width := Home.Percent (Fin q) |} ->
        (p <= q)%Q).
Proof.
  split; [ apply Progress_range | ].
  split; [ reflexivity | ].
  split; [ reflexivity | ].
  split; [ reflexivity | ].
  split; [ | split ].
  - intros x Hx. unfold Home.Progress. rewrite (clamp01_nonpositive Hx). reflexivity.
  - intros x Hx. unfold Home.Progress. rewrite (clamp01_above Hx). reflexivity.
  - intros x y p q Hxy Hp Hq.
    rewrite Progress_finite in Hp. rewrite Progress_finite in Hq.
    injection Hp as <-. injection Hq as <-.
    apply Qmult_le_compat_r; [ | lra ].
    apply Q.max_le_compat_l. apply Q.min_le_compat_l. exact Hxy.
Qed.

Lemma progress_bounded_witness :
  (exists p, Home.Progress PosInfinity = {| Home.bar_width := Home.Percent (Fin p) |}
             /\ (0 <= p <= 100)%Q)
  /\ Home.Progress (Fin (3 # 2)) = {| Home.bar_width := Home.Percent (Fin 100) |}.
Proof.
  destruct progress_bounded as (Hrange & _ & _ & _ & _ & Habove & _).
  split.
  - apply (Hrange PosInfinity). discriminate.
  - apply (Habove (3 # 2)). discriminate.
Defined.

(** ** From the link of a result to the request of the researcher page *)

Lemma uint_digits (d : Decimal.uint) :
  Forall is_digit (lit (NilEmpty.string_of_uint d)).
Proof.
  induction d; simpl; constructor; try assumption; unfold is_digit; cbn; lia.
Qed.

Lemma read_uint_acc (d : Decimal.uint) (acc : positive) (count : nat) :
  read_digits 10 (lit (NilEmpty.string_of_uint d)) (Npos acc) count
  = (Npos (Pos.of_uint_acc d acc), (count + Decimal.nb_digits d)%nat, []).
Proof.
  revert acc count.
  induction d; intros acc count; cbn [NilEmpty.string_of_uint Decimal.nb_digits Pos.of_uint_acc];
    [ rewrite Nat.add_0_r; reflexivity | .. ];
    change (lit (String ?a ?s)) with (N_of_ascii a :: lit s);
    cbn [N_of_ascii N_of_digits]; cbn [read_digits];
    match goal with
    | |- context [ digit_value 10 ?c ] =>
        let v := eval vm_compute in (digit_value 10 c) in
        change (digit_value 10 c) with v
    end;
    cbv iota;
    match goal with
    | |- read_digits 10 _ ?a _ = (Npos (Pos.of_uint_acc _ ?b), _, _) =>
        replace a with (Npos b) by lia
    end;
    rewrite IHd, Nat.add_succ_r; reflexivity.
Qed.

Lemma read_uint (d : Decimal.uint) (count : nat) :
  read_digits 10 (lit (NilEmpty.string_of_uint d)) 0 count
  = (Pos.of_uint d, (count + Decimal.nb_digits d)%nat, []).
Proof.
  revert count.
  induction d; intros count; cbn [NilEmpty.string_of_uint Decimal.nb_digits Pos.of_uint];
    [ rewrite Nat.add_0_r; reflexivity | .. ];
    change (lit (String ?a ?s)) with (N_of_ascii a :: lit s);
    cbn [N_of_ascii N_of_digits]; cbn [read_digits];
    match goal with
    | |- context [ digit_value 10 ?c ] =>
        let v := eval vm_compute in (digit_value 10 c) in
        change (digit_value 10 c) with v
    end;
    cbv iota;
    [ change (0 * 10 + 0)%N with 0%N; rewrite IHd, Nat.add_succ_r; reflexivity | .. ];
    match goal with
    | |- read_digits 10 _ ?a _ = _ =>
        let v := eval vm_compute in a in change a with v
    end;
    rewrite read_uint_acc, Nat.add_succ_r; reflexivity.
Qed.

Lemma digit_cases (c : code_unit) :
  is_digit c ->
  (c = 48 \/ c = 49 \/ c = 50 \/ c = 51 \/ c = 52
   \/ c = 53 \/ c = 54 \/ c = 55 \/ c = 56 \/ c = 57)%N.
Proof. unfold is_digit. lia. Qed.

Ltac each_digit H :=
  apply digit_cases in H;
  repeat (destruct H as [ H | H ]); subst.

Lemma digit_not_white_space (c : code_unit) : is_digit c -> is_white_space c = false.
Proof. intros H. each_digit H; reflexivity. Qed.

Lemma trim_start_digits (t : jsstring) : Forall is_digit t -> trim_start t = t.
Proof.
  intros H. apply trim_start_fixed. intros c r ->.
  apply digit_not_white_space. inversion H; assumption.
Qed.

Lemma trim_digits (t : jsstring) : Forall is_digit t -> trim t = t.
Proof.
  intros H. unfold trim, trim_end. rewrite (trim_start_digits H).
  rewrite trim_start_digits; [ apply rev_involutive | ].
  apply Forall_rev. exact H.
Qed.

Lemma decimal_digits (n : N) : Forall is_digit (decimal n).
Proof.
  unfold decimal. destruct (N.to_uint n) eqn:E; try apply uint_digits.
  repeat constructor; unfold is_digit; cbn; lia.
Qed.

Lemma decimal_read (n : N) :
  exists k, read_digits 10 (decimal n) 0 0 = (n, S k, []).
Proof.
  destruct n as [ | p ]; [ exists O; reflexivity | ].
  unfold decimal. change (N.to_uint (Npos p)) with (Pos.to_uint p).
  pose proof (DecimalPos.Unsigned.to_uint_nonnil p) as Hnil.
  pose proof (DecimalPos.Unsigned.of_to p) as Hof.
  destruct (Pos.to_uint p) as [ | d | d | d | d | d | d | d | d | d | d ] eqn:E;
    [ congruence | .. ];
    unfold NilZero.string_of_uint; rewrite read_uint, Hof;
    eexists; reflexivity.
Qed.

Lemma read_non_decimal_digits (t : jsstring) :
  Forall is_digit t -> read_non_decimal t = None.
Proof.
  intros H. destruct t as [ | c [ | p r ] ].
  - reflexivity.
  - inversion H as [ | ? ? Hc _ ]; subst. each_digit Hc; reflexivity.
  - inversion H as [ | ? ? Hc Hr ]; subst. inversion Hr as [ | ? ? Hp _ ]; subst.
    each_digit Hc; try reflexivity.
    each_digit Hp; reflexivity.
Qed.

Lemma Number_digits (t : jsstring) (v : N) (k : nat) :
  Forall is_digit t -> read_digits 10 t 0 0 = (v, S k, []) ->
  Number t = Fin (inject_Z (Z.of_N v) * 1).
Proof.
  intros H Hread.
  assert (Hunsigned : read_unsigned t = Fin (inject_Z (Z.of_N v) * 1)).
  { unfold read_unsigned.
    assert (Hinf : streq t (lit "Infinity") = false).
    { apply streq_false. intros ->. inversion H as [ | ? ? Hc _ ]; subst.
      unfold is_digit in Hc. cbn in Hc. lia. }
    rewrite Hinf. unfold read_unsigned_decimal. rewrite Hread. reflexivity. }
  unfold Number. rewrite (trim_digits H).
  destruct t as [ | c r ]; [ discriminate Hread | ].
  pose proof (read_non_decimal_digits H) as Hnd.
  inversion H as [ | ? ? Hc _ ]; subst.
  each_digit Hc; rewrite Hnd; exact Hunsigned.
Qed.

Lemma number_to_string_natural (sd : Q -> jsstring) (q : Q) (n : N) :
  q == inject_Z (Z.of_N n) -> (Z.of_N n < ten_pow_21)%Z ->
  number_to_string sd (Fin q) = decimal n.
Proof.
  intros Hq Hn. unfold number_to_string.
  assert (Hfloor : Qfloor q = Z.of_N n) by (rewrite Hq; apply Qfloor_Z).
  rewrite Hfloor.
  assert (Hint : is_integer q = true).
  { unfold is_integer. apply Qeq_bool_iff. rewrite Hfloor, Hq. reflexivity. }
  rewrite Hint.
  assert (Hsmall : (Z.abs (Z.of_N n) <? ten_pow_21)%Z = true)
    by (apply Z.ltb_lt; lia).
  rewrite Hsmall.
  assert (Hsign : (Z.of_N n <? 0)%Z = false) by (apply Z.ltb_ge; lia).
  cbn [andb]. rewrite Hsign, Zabs2N.id. reflexivity.
Qed.

Lemma small_integers : (two_pow_53 < ten_pow_21)%Z.
Proof. reflexivity. Qed.

(** X11: for a researcher whose identifier is a natural number up to 2^53,
    the link of a result reads [/researcher/<digits>]; the researcher page,
    given those digits as [params.id], converts them back to the same
    number and asks for [GET <base>/researcher/<digits>]: the detail
    requested is that of the researcher of the link. *)
Theorem link_opens_detail (env : option jsstring) (sd : Q -> jsstring) (n : N) :
  (Z.of_N n <= two_pow_53)%Z ->
  let id := Fin (inject_Z (Z.of_N n)) in
  (forall it, Api.id (Api.researcher it) = id ->
              HomeView.href (HomeView.render_result sd it)
              = lit "/researcher/" ++ decimal n)
  /\ num_eq (Number (decimal n)) id
  /\ (forall fetch,
        Api.getResearcher env sd fetch (Number (decimal n))
        = Api.respond
            (fetch {| Api.url := Api.API_BASE env ++ lit "/researcher/" ++ decimal n;
                      Api.method := Some (lit "GET");
                      Api.body := None;
                      Api.headers := [(lit "Content-Type", lit "application/json")] |})).
Proof.
  intros Hsafe id.
  assert (Hn : (Z.of_N n < ten_pow_21)%Z)
    by (apply Z.le_lt_trans with two_pow_53; [ exact Hsafe | exact small_integers ]).
  destruct (decimal_read n) as [k Hread].
  pose proof (Number_digits (decimal_digits n) Hread) as Hnumber.
  split; [ | split ].
  - intros it Hid. cbn [HomeView.render_result HomeView.href]. rewrite Hid.
    unfold id. rewrite (@number_to_string_natural sd _ n); [ reflexivity | reflexivity | exact Hn ].
  - rewrite Hnumber. unfold id. cbn [num_eq]. ring.
  - intros fetch. unfold Api.getResearcher, Api.request, Api.request_of, Api.getResearcher_path.
    rewrite Hnumber.
    rewrite (@number_to_string_natural sd _ n); [ reflexivity | ring | exact Hn ].
Qed.

Lemma link_opens_detail_witness :
  HomeView.href (HomeView.render_result (fun _ => []) Sample.item) = lit "/researcher/41"
  /\ num_eq (Number (lit "41")) (Fin 41).
Proof.
  assert (Hsafe : (Z.of_N 41 <= two_pow_53)%Z) by discriminate.
  destruct (link_opens_detail None (fun _ => []) 41 Hsafe) as (Hhref & Hnum & _).
  split; [ apply Hhref; reflexivity | exact Hnum ].
Defined.

(** ** The researcher page on failure and after leaving *)

(** X12: once the component is gone or the id has changed, what the call
    resolves or rejects to never reaches the state: the state is left as
    the effect set it before awaiting, loading and without error, with the
    researcher it had. *)
Theorem effect_unmounted (env : option jsstring) (sd : Q -> jsstring)
    (fetch : Api.Request -> settled (Api.Response Api.ResearcherDetail))
    (params_id : jsstring) (s : ResearcherPage.state) :
  ResearcherPage.effect env sd fetch params_id false s
  = {| ResearcherPage.loading := true;
       ResearcherPage.error := None;
       ResearcherPage.r := ResearcherPage.r s |}
  /\ ResearcherPage.render (ResearcherPage.effect env sd fetch params_id false s)
     = ResearcherPage.Loading.
Proof.
  unfold ResearcherPage.effect.
  destruct (Api.getResearcher env sd fetch (Number params_id)); split; reflexivity.
Qed.

(** X13: on a mounted page the effect always ends the loading state.  When
    the call is rejected the researcher held before is kept and the text of
    the failure is shown in its place; an empty text shows nothing, and the
    page falls back to the researcher held before, or to "Not found".  A
    response that is not ok always shows [API <status>: <body text>]. *)
Theorem effect_failure_view (env : option jsstring) (sd : Q -> jsstring)
    (fetch : Api.Request -> settled (Api.Response Api.ResearcherDetail))
    (params_id : jsstring) (s : ResearcherPage.state) :
  let s' := ResearcherPage.effect env sd fetch params_id true s in
  ResearcherPage.loading s' = false
  /\ ResearcherPage.render s' <> ResearcherPage.Loading
  /\ (forall e,
        Api.getResearcher env sd fetch (Number params_id) = Rejected e ->
        ResearcherPage.r s' = ResearcherPage.r s
        /\ (Home.catch_text e <> [] ->
            ResearcherPage.render s' = ResearcherPage.ErrorBox (Home.catch_text e))
        /\ (Home.catch_text e = [] ->
            ResearcherPage.render s'
            = match ResearcherPage.r s with
              | Some d => ResearcherPage.Detail (ResearcherPage.render_detail d)
              | None => ResearcherPage.NotFound
              end))
  /\ (forall res,
        fetch (Api.request_of env (Api.getResearcher_path sd (Number params_id))
                 Api.getResearcher_init) = Fulfilled res ->
        Api.ok res = false ->
        ResearcherPage.render s'
        = ResearcherPage.ErrorBox
            (lit "API " ++ decimal (Api.status res) ++ lit ": " ++ Api.text res)).
Proof.
  intros s'.
  assert (Hloading : ResearcherPage.loading s' = false) by reflexivity.
  split; [ exact Hloading | ].
  split.
  { unfold ResearcherPage.render. rewrite Hloading.
    destruct (ResearcherPage.error s') as [ [ | c m ] | ];
      try discriminate; destruct (ResearcherPage.r s'); discriminate. }
  assert (Hrejected : forall e,
            Api.getResearcher env sd fetch (Number params_id) = Rejected e ->
            s' = {| ResearcherPage.loading := false;
                    ResearcherPage.error := Some (Home.catch_text e);
                    ResearcherPage.r := ResearcherPage.r s |}).
  { intros e He. unfold s', ResearcherPage.effect. rewrite He. reflexivity. }
  split.
  - intros e He. rewrite (Hrejected e He). split; [ reflexivity | ].
    unfold ResearcherPage.render. cbn [ResearcherPage.loading ResearcherPage.error ResearcherPage.r].
    split.
    + destruct (Home.catch_text e); [ congruence | reflexivity ].
    + intros ->. reflexivity.
  - intros res Hfetch Hok.
    rewrite (Hrejected (new_Error (lit "API " ++ decimal (Api.status res)
                                   ++ lit ": " ++ Api.text res))).
    + reflexivity.
    + unfold Api.getResearcher, Api.request. rewrite Hfetch.
      apply respond_not_ok. exact Hok.
Qed.

Lemma effect_failure_view_witness :
  let res := {| Api.ok := false; Api.status := 404%N; Api.text := lit "no such researcher";
                Api.json := Fulfilled Sample.long_serving |} in
  ResearcherPage.render
    (ResearcherPage.effect None (fun _ => []) (fun _ => Fulfilled res) (lit "7") true
       {| ResearcherPage.loading := false; ResearcherPage.error := None;
          ResearcherPage.r := Some Sample.long_serving |})
  = ResearcherPage.ErrorBox (lit "API 404: no such researcher").
Proof.
  intros res.
  apply (proj2 (proj2 (proj2
           (effect_failure_view None (fun _ => []) (fun _ => Fulfilled res) (lit "7")
              {| ResearcherPage.loading := false; ResearcherPage.error := None;
                 ResearcherPage.r := Some Sample.long_serving |}))) res eq_refl eq_refl).
Defined.

(** ** What the detail shows for missing values *)

Lemma or_else_nonempty (s : option jsstring) (default : jsstring) :
  default <> [] -> or_else s default <> [].
Proof.
  intros Hd. unfold or_else. destruct s as [ [ | c r ] | ]; simpl; congruence.
Qed.

(** X14: the detail of a researcher never shows an empty affiliation,
    country or venue (a placeholder stands in) and never links an empty
    profile URL; it shows every topic; it shows at most twenty rows of PC
    history, and says that there is no PC history, or no publication,
    exactly when it shows no row of them. *)
Theorem detail_placeholders (d : Api.ResearcherDetail) :
  let v := ResearcherPage.render_detail d in
  ResearcherPage.shown_affiliation v <> []
  /\ ResearcherPage.shown_country v <> []
  /\ Forall (fun row => ResearcherPage.pub_venue row <> []) (ResearcherPage.publication_rows v)
  /\ ResearcherPage.profile_href v <> Some []
  /\ ResearcherPage.topic_pills v = or_empty (Api.detail_topics d)
  /\ (List.length (ResearcherPage.pc_rows v) <= 20)%nat
  /\ (ResearcherPage.no_pc_history v = true <-> ResearcherPage.pc_rows v = [])
  /\ (ResearcherPage.no_publications v = true <-> ResearcherPage.publication_rows v = []).
Proof.
  intros v. unfold v, ResearcherPage.render_detail.
  cbn [ResearcherPage.shown_affiliation ResearcherPage.shown_country
       ResearcherPage.publication_rows ResearcherPage.profile_href
       ResearcherPage.topic_pills ResearcherPage.pc_rows
       ResearcherPage.no_pc_history ResearcherPage.no_publications].
  split; [ apply or_else_nonempty; discriminate | ].
  split; [ apply or_else_nonempty; discriminate | ].
  split.
  { apply Forall_forall. intros row Hrow.
    apply in_map_iff in Hrow. destruct Hrow as (p & <- & _).
    cbn [ResearcherPage.pub_venue]. apply or_else_nonempty. discriminate. }
  split.
  { destruct (Api.person_profile_url d) as [ [ | c u ] | ]; discriminate. }
  split; [ reflexivity | ].
  split.
  { rewrite length_map. apply firstn_le_length. }
  split.
  - destruct (or_empty (Api.pc_history d)); simpl; split; congruence.
  - destruct (or_empty (Api.recent_publications d)); simpl; split; congruence.
Qed.

(** ** The scalar fields of the payload and blank topics *)

Lemma Number_trim (s : jsstring) : Number (trim s) = Number s.
Proof. unfold Number. rewrite trim_idempotent. reflexivity. Qed.

(** X15: a blank conference or year is sent as [null], never as an empty
    string or as 0; a conference that is sent has no white space around it;
    the year and the recency window sent are [Number] of the text typed,
    and white space around the three inputs changes nothing. *)
Theorem payload_scalars (s : Home.state) :
  let p := Home.payload s in
  (Api.conference_series p = None <-> trim (Home.conference s) = [])
  /\ (forall c, Api.conference_series p = Some c ->
                c <> [] /\ trim c = c /\ c = trim (Home.conference s))
  /\ (Api.year p = None <-> trim (Home.year s) = [])
  /\ (forall y, Api.year p = Some y -> y = Number (Home.year s))
  /\ (trim (Home.yearsBack s) <> [] -> Api.years_back p = Number (Home.yearsBack s))
  /\ (forall s2,
        trim (Home.conference s2) = trim (Home.conference s) ->
        trim (Home.year s2) = trim (Home.year s) ->
        trim (Home.yearsBack s2) = trim (Home.yearsBack s) ->
        Home.topics s2 = Home.topics s ->
        Home.payload s2 = p).
Proof.
  intros p. unfold p, Home.payload.
  cbn [Api.conference_series Api.year Api.years_back].
  split; [ | split; [ | split; [ | split; [ | split ] ] ] ].
  - destruct (trim (Home.conference s)); simpl; split; congruence.
  - intros c Hc. destruct (trim (Home.conference s)) as [ | a r ] eqn:E; simpl in Hc;
      [ discriminate | ].
    injection Hc as <-. split; [ discriminate | ].
    split; [ rewrite <- E; apply trim_idempotent | reflexivity ].
  - destruct (trim (Home.year s)); simpl; split; congruence.
  - intros y Hy. destruct (trim (Home.year s)) as [ | a r ] eqn:E; simpl in Hy;
      [ discriminate | ].
    injection Hy as <-. rewrite <- E. apply Number_trim.
  - intros Hne. destruct (trim (Home.yearsBack s)) as [ | a r ] eqn:E; [ congruence | ].
    simpl. rewrite <- E. apply Number_trim.
  - intros s2 Hc Hy Hb Ht. rewrite Hc, Hy, Hb, Ht. reflexivity.
Qed.

Lemma payload_scalars_witness :
  Home.payload (Home.setYear (lit " 2026 ")
                  (Home.setConference (lit "  ICSE") (Home.setTopics (lit "testing") Home.initial)))
  = Home.payload Sample.form.
Proof.
  apply (proj2 (proj2 (proj2 (proj2 (proj2 (payload_scalars Sample.form))))));
    reflexivity.
Defined.

Lemma trim_start_blank (t : jsstring) :
  Forall (fun c => is_white_space c = true) t -> trim_start t = [].
Proof.
  induction 1 as [ | c r Hc _ IH ]; simpl; [ reflexivity | ].
  rewrite Hc. exact IH.
Qed.

Lemma split_pieces_chars (sep : code_unit) (s piece : jsstring) (c : code_unit) :
  In piece (split sep s) -> In c piece -> In c s.
Proof.
  revert piece. induction s as [ | a r IH ]; simpl; intros piece H Hc.
  - destruct H as [ <- | [] ]. exact Hc.
  - destruct (a =? sep)%N.
    + destruct H as [ <- | H ]; [ destruct Hc | right; apply (IH piece); assumption ].
    + destruct (split sep r) as [ | p ps ] eqn:Es.
      * destruct (split_nonempty sep r Es).
      * destruct H as [ <- | H ].
        -- destruct Hc as [ <- | Hc ]; [ left; reflexivity | ].
           right. apply (IH p); [ left; reflexivity | exact Hc ].
        -- right. apply (IH piece); [ right; exact H | exact Hc ].
Qed.

Lemma split_covers (sep : code_unit) (s : jsstring) (c : code_unit) :
  In c s -> c <> sep -> exists piece, In piece (split sep s) /\ In c piece.
Proof.
  induction s as [ | a r IH ]; simpl; intros Hc Hne; [ contradiction | ].
  destruct (a =? sep)%N eqn:E.
  - apply N.eqb_eq in E. destruct Hc as [ -> | Hc ]; [ congruence | ].
    destruct (IH Hc Hne) as (piece & Hpiece & Hin).
    exists piece. split; [ right; exact Hpiece | exact Hin ].
  - destruct (split sep r) as [ | p ps ] eqn:Es; [ destruct (split_nonempty sep r Es) | ].
    destruct Hc as [ -> | Hc ].
    + exists (c :: p). split; left; reflexivity.
    + destruct (IH Hc Hne) as (piece & [ <- | Hpiece ] & Hin).
      * exists (a :: p). split; [ left; reflexivity | right; exact Hin ].
      * exists piece. split; [ right; exact Hpiece | exact Hin ].
Qed.

Lemma trim_start_keeps (s : jsstring) (c : code_unit) :
  In c s -> is_white_space c = false -> In c (trim_start s).
Proof.
  induction s as [ | a r IH ]; simpl; intros Hc Hws; [ contradiction | ].
  destruct (is_white_space a) eqn:E.
  - destruct Hc as [ -> | Hc ]; [ congruence | apply IH; assumption ].
  - exact Hc.
Qed.

Lemma trim_keeps (s : jsstring) (c : code_unit) :
  In c s -> is_white_space c = false -> In c (trim s).
Proof.
  intros Hc Hws. unfold trim, trim_end.
  apply in_rev. rewrite rev_involutive.
  apply trim_start_keeps; [ | exact Hws ].
  apply in_rev. rewrite rev_involutive.
  apply trim_start_keeps; assumption.
Qed.

(** X16: the payload carries no topic at all exactly when the topics input
    holds nothing but white space and commas, the empty input included. *)
Theorem payload_topics_blank (s : Home.state) :
  Api.topics (Home.payload s) = []
  <-> Forall (fun c => is_white_space c = true \/ c = comma) (Home.topics s).
Proof.
  unfold Home.payload. cbn [Api.topics]. split.
  - intros Hnone. apply Forall_forall. intros c Hc.
    destruct (is_white_space c) eqn:Hws; [ left; reflexivity | ].
    destruct (N.eq_dec c comma) as [ E | Hne ]; [ right; exact E | ].
    exfalso.
    destruct (@split_covers comma (Home.topics s) c Hc Hne) as (piece & Hpiece & Hin).
    assert (Hsent : In (trim piece)
                       (filter truthy (map trim (split comma (Home.topics s))))).
    { apply filter_In. split; [ apply in_map; exact Hpiece | ].
      pose proof (@trim_keeps piece c Hin Hws) as Hkept.
      destruct (trim piece); [ destruct Hkept | reflexivity ]. }
    rewrite Hnone in Hsent. destruct Hsent.
  - intros Hblank.
    assert (Hpieces : forall piece, In piece (split comma (Home.topics s)) -> trim piece = []).
    { intros piece Hpiece. unfold trim. rewrite trim_start_blank; [ reflexivity | ].
      apply Forall_forall. intros c Hc.
      rewrite Forall_forall in Hblank.
      destruct (Hblank c (split_pieces_chars _ _ _ _ Hpiece Hc)) as [ Hws | -> ];
        [ exact Hws | ].
      destruct (split_pieces _ _ _ Hpiece Hc). }
    induction (split comma (Home.topics s)) as [ | piece pieces IH ]; [ reflexivity | ].
    cbn [map filter]. rewrite (Hpieces piece (or_introl eq_refl)). cbn [truthy].
    apply IH. intros q Hq. apply Hpieces. right. exact Hq.
Qed.

Lemma payload_topics_blank_witness :
  Api.topics (Home.payload (Home.setTopics (lit " , ,, ") Home.initial)) = []
  /\ Api.topics (Home.payload Home.initial) = [].
Proof.
  split.
  - apply payload_topics_blank.
    repeat first [ apply Forall_nil
                 | apply Forall_cons; [ first [ left; reflexivity | right; reflexivity ] | ] ].
  - apply payload_topics_blank. constructor.
Defined.

(** ** Integers typed into the recency window *)

Lemma trim_no_white_space (t : jsstring) :
  Forall (fun c => is_white_space c = false) t -> trim t = t.
Proof.
  intros H. unfold trim, trim_end.
  assert (Hstart : forall u, Forall (fun c => is_white_space c = false) u -> trim_start u = u).
  { intros u Hu. apply trim_start_fixed. intros c r ->. inversion Hu; assumption. }
  rewrite (Hstart t H), (Hstart (rev t) (Forall_rev H)). apply rev_involutive.
Qed.

Lemma read_unsigned_digits (t : jsstring) (v : N) (k : nat) :
  Forall is_digit t -> read_digits 10 t 0 0 = (v, S k, []) ->
  read_unsigned t = Fin (inject_Z (Z.of_N v) * 1).
Proof.
  intros H Hread. unfold read_unsigned.
  assert (Hinf : streq t (lit "Infinity") = false).
  { apply streq_false. intros ->. inversion H as [ | ? ? Hc _ ]; subst.
    unfold is_digit in Hc. cbn in Hc. lia. }
  rewrite Hinf. unfold read_unsigned_decimal. rewrite Hread. reflexivity.
Qed.

Lemma Number_negative (n : N) :
  Number (lit "-" ++ decimal n) = Fin (- (inject_Z (Z.of_N n) * 1)).
Proof.
  destruct (decimal_read n) as [k Hread].
  unfold Number. rewrite trim_no_white_space.
  - change (lit "-" ++ decimal n) with (45%N :: decimal n). cbv iota.
    rewrite (read_unsigned_digits (decimal_digits n) Hread). reflexivity.
  - constructor; [ reflexivity | ].
    apply (Forall_impl _ digit_not_white_space (decimal_digits n)).
Qed.

(** X17: the page sends the recency window as typed, neither clamped nor
    checked: the digits of a natural number up to 2^53 give that number, 0
    included (only a blank field gives the default 3), and a minus sign
    before them gives the negative number. *)
Theorem window_sent_as_typed (s : Home.state) (n : N) :
  (Z.of_N n <= two_pow_53)%Z ->
  (Home.yearsBack s = decimal n ->
   num_eq (Api.years_back (Home.payload s)) (Fin (inject_Z (Z.of_N n))))
  /\ (Home.yearsBack s = lit "-" ++ decimal n ->
      num_eq (Api.years_back (Home.payload s)) (Fin (- inject_Z (Z.of_N n)))).
Proof.
  intros _.
  destruct (decimal_read n) as [k Hread].
  unfold Home.payload. cbn [Api.years_back]. split; intros ->.
  - rewrite (trim_digits (decimal_digits n)).
    pose proof (Number_digits (decimal_digits n) Hread) as Hnumber.
    destruct (decimal n) as [ | c r ]; [ discriminate Hread | ].
    cbn [truthy]. rewrite Hnumber. cbn [num_eq]. ring.
  - rewrite trim_no_white_space.
    + change (truthy (lit "-" ++ decimal n)) with true. cbv iota.
      rewrite Number_negative. cbn [num_eq]. ring.
    + constructor; [ reflexivity | ].
      apply (Forall_impl _ digit_not_white_space (decimal_digits n)).
Qed.

Lemma window_sent_as_typed_witness :
  num_eq (Api.years_back (Home.payload (Home.setYearsBack (lit "0") Home.initial))) (Fin 0)
  /\ num_eq (Api.years_back (Home.payload (Home.setYearsBack (lit "-12") Home.initial)))
            (Fin (-12)).
Proof.
  split.
  - apply (proj1 (window_sent_as_typed (Home.setYearsBack (lit "0") Home.initial) 0
                    ltac:(discriminate))).
    reflexivity.
  - apply (proj2 (window_sent_as_typed (Home.setYearsBack (lit "-12") Home.initial) 12
                    ltac:(discriminate))).
    reflexivity.
Defined.

(** ** The rows of a breakdown *)

(** X18: a breakdown is always shown as eight rows, one per field; each
    row prints [toFixed(3)] of its field, not of the clamped value, and
    when no field is NaN every bar is between 0 and 100 percent wide. *)
Theorem breakdown_rows (sd : Q -> jsstring) (b : Api.ScoreBreakdown) :
  List.length (Home.ScoreBreakdownView sd b) = 8%nat
  /\ (forall k, exists rv,
        In rv (Home.ScoreBreakdownView sd b) /\ Home.shown_key rv = k)
  /\ Forall (fun rv =>
               Home.shown_value rv = to_fixed sd 3 (Api.field b (Home.shown_key rv))
               /\ Home.shown_bar rv = Home.Progress (Api.field b (Home.shown_key rv)))
            (Home.ScoreBreakdownView sd b)
  /\ ((forall k, Api.field b k <> NaN) ->
      Forall (fun rv =>
                exists p, Home.shown_bar rv = {| Home.bar_width := Home.Percent (Fin p) |}
                          /\ (0 <= p <= 100)%Q)
             (Home.ScoreBreakdownView sd b)).
Proof.
  assert (Hrows : Forall (fun rv =>
               Home.shown_value rv = to_fixed sd 3 (Api.field b (Home.shown_key rv))
               /\ Home.shown_bar rv = Home.Progress (Api.field b (Home.shown_key rv)))
            (Home.ScoreBreakdownView sd b)).
  { unfold Home.ScoreBreakdownView. apply Forall_forall. intros rv Hrv.
    apply in_map_iff in Hrv. destruct Hrv as (r & <- & _). split; reflexivity. }
  split; [ reflexivity | split; [ | split; [ exact Hrows | ] ] ].
  - intros k.
    assert (Hk : In k (map Home.shown_key (Home.ScoreBreakdownView sd b)))
      by (destruct k; cbn; auto 10).
    apply in_map_iff in Hk. destruct Hk as (rv & Hkey & Hin).
    exists rv. split; assumption.
  - intros Hb. apply (Forall_impl _ (P := fun rv =>
               Home.shown_value rv = to_fixed sd 3 (Api.field b (Home.shown_key rv))
               /\ Home.shown_bar rv = Home.Progress (Api.field b (Home.shown_key rv))));
      [ | exact Hrows ].
    intros rv [_ Hbar]. rewrite Hbar. apply Progress_range, Hb.
Qed.

Lemma breakdown_rows_witness :
  Forall (fun rv =>
            exists p, Home.shown_bar rv = {| Home.bar_width := Home.Percent (Fin p) |}
                      /\ (0 <= p <= 100)%Q)
         (Home.ScoreBreakdownView (fun _ => []) (Api.score_breakdown Sample.item)).
Proof.
  apply (proj2 (proj2 (proj2 (breakdown_rows (fun _ => [])
                                (Api.score_breakdown Sample.item))))).
  intros k. destruct k; discriminate.
Defined.

(** ** The decimals of a score *)

Lemma to_fixed_shape (sd : Q -> jsstring) (f : nat) (q : Q) :
  (Qabs q < inject_Z ten_pow_21)%Q ->
  exists int frac,
    to_fixed sd (S f) (Fin q)
    = (match q ?= 0 with Lt => lit "-" | _ => [] end) ++ int ++ lit "." ++ frac
    /\ int <> [] /\ Forall is_digit int /\ Forall is_digit frac
    /\ List.length frac = S f.
Proof.
  intros Hq. unfold to_fixed.
  assert (Hsmall : Qle_bool (inject_Z ten_pow_21) (Qabs q) = false).
  { destruct (Qle_bool (inject_Z ten_pow_21) (Qabs q)) eqn:E; [ | reflexivity ].
    apply Qle_bool_iff in E. lra. }
  rewrite Hsmall.
  set (n := Z.to_N (Qfloor (Qabs q * inject_Z (10 ^ Z.of_nat (S f)) + (1 # 2)))).
  clearbody n.
  set (m := repeat 48%N (S (S f) - List.length (decimal n)) ++ decimal n).
  assert (Hlen : (S (S f) <= List.length m)%nat).
  { unfold m. rewrite length_app, repeat_length. unfold code_unit. lia. }
  assert (Hdigits : Forall is_digit m).
  { unfold m. apply Forall_app. split; [ | apply decimal_digits ].
    apply Forall_forall. intros c Hc. apply repeat_spec in Hc. subst c.
    unfold is_digit. lia. }
  clearbody m.
  rewrite <- (firstn_skipn (List.length m - S f) m) in Hdigits.
  apply Forall_app in Hdigits. destruct Hdigits as [Hint Hfrac].
  exists (firstn (List.length m - S f) m), (skipn (List.length m - S f) m).
  split; [ reflexivity | ].
  split.
  { intros E. apply (f_equal (@List.length _)) in E.
    rewrite length_firstn in E. change (List.length (@nil code_unit)) with O in E. lia. }
  split; [ exact Hint | split; [ exact Hfrac | ] ].
  rewrite length_skipn. lia.
Qed.

(** X19: a score below 10^21 in magnitude is printed with exactly four
    decimals in the list of results, and a field of the breakdown with
    exactly three: an optional minus sign, at least one digit, a point and
    the decimals. *)
Theorem scores_printed (sd : Q -> jsstring) (q : Q) :
  (Qabs q < inject_Z ten_pow_21)%Q ->
  let printed (decimals : nat) (text : jsstring) : Prop :=
    exists int frac,
      text = (match q ?= 0 with Lt => lit "-" | _ => [] end) ++ int ++ lit "." ++ frac
      /\ int <> [] /\ Forall is_digit int /\ Forall is_digit frac
      /\ List.length frac = decimals in
  (forall it, Api.score it = Fin q ->
              printed 4%nat (HomeView.total_score (HomeView.render_result sd it)))
  /\ (forall b rv, In rv (Home.ScoreBreakdownView sd b) ->
                   Api.field b (Home.shown_key rv) = Fin q ->
                   printed 3%nat (Home.shown_value rv)).
Proof.
  intros Hq printed. split.
  - intros it Hit. cbn [HomeView.render_result HomeView.total_score]. rewrite Hit.
    apply (@to_fixed_shape sd 3 q Hq).
  - intros b rv Hrv Hfield.
    unfold Home.ScoreBreakdownView in Hrv.
    apply in_map_iff in Hrv. destruct Hrv as (r & <- & _).
    cbn [Home.shown_value Home.shown_key] in *. rewrite Hfield.
    apply (@to_fixed_shape sd 2 q Hq).
Qed.

Lemma scores_printed_witness :
  exists int frac,
    HomeView.total_score (HomeView.render_result (fun _ => []) Sample.item)
    = [] ++ int ++ lit "." ++ frac
    /\ List.length frac = 4%nat.
Proof.
  destruct (proj1 (@scores_printed (fun _ => []) (35 # 100) eq_refl) Sample.item eq_refl)
    as (int & frac & Htext & _ & _ & _ & Hlen).
  exists int, frac. split; [ exact Htext | exact Hlen ].
Defined.
